(** * STED point-spread-function simulation: parameter validation,
      PSF synthesis and resolution analysis

    Shallow embedding of [start.py], [source/psf_functions.py],
    [source/resolution_functions.py] and the grid and normalisation
    statements of [source/main.py].

    Number model.  Python [int]s are [Z].  Finite Python floats are
    idealised as exact numbers: rationals [Q] where the code only compares
    and halves them (validation, [fwhm]), reals [R] where it calls [exp]
    (the PSF kernels, the diffraction limit).  Rounding, overflow and
    underflow of IEEE doubles are outside the model; the non-finite floats
    that a configuration file can produce ([inf], [nan]) are kept in the
    validation model. *)

From Stdlib Require Import ZArith QArith Qminmax Reals Lia Lqa Lra.
From stdpp Require Import base option list strings pretty gmap.

Local Open Scope string_scope.

(** ** Python values, exceptions and results *)

Module Py.

(** A Python float: finite, infinite or not-a-number. *)
Inductive float : Type :=
| Finite (q : Q)
| PosInf
| NegInf
| NaN.

(** The numbers [read_config_file] stores in the parameter dictionary. *)
Inductive num : Type :=
| Int (z : Z)
| Float (f : float).

Definition as_float (v : num) : float :=
  match v with
  | Int z => Finite (inject_Z z)
  | Float f => f
  end.

(** [a <= b] on floats; every comparison with [nan] is false. *)
Definition float_le (a b : float) : bool :=
  match a, b with
  | NaN, _ | _, NaN => false
  | NegInf, _ => true
  | _, PosInf => true
  | Finite p, Finite q => Qle_bool p q
  | _, _ => false
  end.

(** [a < b] on floats. *)
Definition float_lt (a b : float) : bool :=
  match a, b with
  | NaN, _ | _, NaN => false
  | PosInf, _ => false
  | _, NegInf => false
  | Finite p, Finite q => negb (Qle_bool q p)
  | _, _ => true
  end.

(** Python compares an [int] with a [float] by exact value. *)
Definition le (a b : num) : bool := float_le (as_float a) (as_float b).
Definition lt (a b : num) : bool := float_lt (as_float a) (as_float b).

(** The exact value of a finite number. *)
Definition value (v : num) : option Q :=
  match as_float v with
  | Finite q => Some q
  | _ => None
  end.

(** Exception messages.  [Invalid f v e] stands for the f-string
    [f"Invalid {f} value: {v} (Expected: {e})"]; the value is carried
    unformatted. *)
Inductive message : Type :=
| Invalid (field : string) (v : num) (expected : string)
| Text (s : string).

Inductive exn : Type :=
| KeyError (key : string)
| ValueError (msg : message)
| ZeroDivisionError (msg : string).

Inductive result (A : Type) : Type :=
| Ok (a : A)
| Raise (e : exn).
Arguments Ok {A} a.
Arguments Raise {A} e.

Definition bind {A B} (r : result A) (k : A -> result B) : result B :=
  match r with
  | Ok a => k a
  | Raise e => Raise e
  end.

(** [params[key]] on a dictionary. *)
Definition getitem {V} (params : gmap string V) (key : string) : result V :=
  match params !! key with
  | Some v => Ok v
  | None => Raise (KeyError key)
  end.

End Py.

Notation "'let!' x ':=' r 'in' k" := (Py.bind r (fun x => k))
  (at level 10, x pattern, r at level 100, k at level 200).

(** ** start.py *)

Module Start.
Import Py.

(** One guard of [validate_parameters]:
    [if not (lo <= params[f] <= hi): raise ValueError(f"Invalid {f} value: ...")]. *)
Definition check (params : gmap string num) (f : string) (lo hi : num)
    (expected : string) : result unit :=
  let! v := getitem params f in
  if negb (le lo v && le v hi)
  then Raise (ValueError (Invalid f v expected))
  else Ok tt.

Definition validate_parameters (params : gmap string num) : result unit :=
  let! _ := check params "lambda_exc" (Int 400) (Int 700) "400–700 nm" in
  let! _ := check params "lambda_sted" (Int 710) (Int 850) "710–850 nm" in
  let! _ := check params "NA" (Float (Finite (1 # 2))) (Float (Finite (149 # 100)))
         "0.5–1.49" in
  let! _ := check params "I_s" (Float (Finite (1 # 10))) (Float (Finite 5)) "0.1–5.0" in
  let! _ := check params "I0_sted" (Int 0) (Int 100) "0–100" in
  let! _ := check params "grid_size" (Int 256) (Int 1000) "256–1000" in
  check params "extent_nm" (Int 500) (Int 2000) "500–2000".

(** The parameter set of the test suite ([valid_params] in tests/testing.py). *)
Definition valid_params : gmap string num :=
  list_to_map
    [("lambda_exc", Int 650); ("lambda_sted", Int 750);
     ("NA", Float (Finite (13 # 10))); ("I_s", Int 2); ("I0_sted", Int 25);
     ("grid_size", Int 500); ("extent_nm", Int 1000)].

End Start.

(** ** The numpy operations the sources call *)

Module Np.
Import Py.

(** A reduction ([np.max], [np.min]) over the elements of an array, listed
    in row-major order: an array of size zero has no maximum or minimum. *)
Definition reduce {A} (op : A -> A -> A) (name : string) (a : list A) : result A :=
  match a with
  | [] => Raise (ValueError (Text
            ("zero-size array to reduction operation " ++ name
             ++ " which has no identity")))
  | x :: rest => Ok (foldl op x rest)
  end.

Definition max (a : list Q) : result Q := reduce Qmax "maximum" a.
Definition max_index (a : list nat) : result nat := reduce Nat.max "maximum" a.
Definition min_index (a : list nat) : result nat := reduce Nat.min "minimum" a.

(** The positions [(i, j), (i, j+1), ...] of row [i] where the mask holds. *)
Fixpoint where_row (i j : nat) (row : list bool) : list (nat * nat) :=
  match row with
  | [] => []
  | b :: row' =>
      if b then (i, j) :: where_row i (S j) row' else where_row i (S j) row'
  end.

Fixpoint where_rows (i : nat) (mask : list (list bool)) : list (nat * nat) :=
  match mask with
  | [] => []
  | row :: mask' => where_row i 0 row ++ where_rows (S i) mask'
  end.

(** [np.where(mask)] on a 2D mask: the row indices and the column indices of
    the true entries, in row-major order. *)
Definition where_ (mask : list (list bool)) : list nat * list nat :=
  let positions := where_rows 0 mask in
  (map fst positions, map snd positions).

(** Element [a[i, j]] of a 2D array, when the position exists. *)
Definition item {A} (a : list (list A)) (i j : nat) : option A :=
  match a !! i with
  | Some row => row !! j
  | None => None
  end.

(** An array of [n] rows and [m] columns. *)
Definition shape {A} (a : list (list A)) (n m : nat) : Prop :=
  length a = n /\ Forall (fun row => length row = m) a.

(** An operation applied element by element to two arrays of one shape. *)
Definition elementwise {A B C} (op : A -> B -> C)
    (a : list (list A)) (b : list (list B)) : list (list C) :=
  zip_with (zip_with op) a b.

End Np.

(** ** source/resolution_functions.py *)

Module ResolutionFunctions.
Import Py.

(** [np.max(psf)] reduces over all entries; [psf >= half_max] is the mask
    [half_max <= psf[i, j]]; [indices[0]] holds the row index of every
    position of the mask, and the two reductions over it raise when the
    mask is empty. *)
Definition fwhm (psf : list (list Q)) : result Z :=
  let! psf_max := Np.max (concat psf) in
  let half_max := (psf_max / 2)%Q in
  let indices := Np.where_ (map (map (Qle_bool half_max)) psf) in
  let! hi := Np.max_index (fst indices) in
  let! lo := Np.min_index (fst indices) in
  Ok (Z.of_nat hi - Z.of_nat lo)%Z.

(** [wavelength / (2 * NA)] on Python floats: a zero divisor raises. *)
Definition diffraction_limit (wavelength NA : R) : result R :=
  if Req_dec_T (2 * NA) 0
  then Raise (ZeroDivisionError "float division by zero")
  else Ok (wavelength / (2 * NA))%R.

End ResolutionFunctions.

(** ** source/psf_functions.py *)

Module PsfFunctions.

Local Open Scope R_scope.

(** The three kernels, at one grid position. *)
Definition gaussian_psf_at (w0 : R) (x y : R) : R :=
  exp ((- (x ^ 2 + y ^ 2)) / w0 ^ 2).

Definition laguerre_gaussian_donut_at (w : R) (m : Z) (x y : R) : R :=
  let r2 := x ^ 2 + y ^ 2 in
  powerRZ (r2 / w ^ 2) m * exp ((- r2) / w ^ 2).

Definition effective_psf_at (I_s I0_sted : R) (exc sted : R) : R :=
  exc * exp ((- I0_sted) * sted / I_s).

(** The functions of the module, on meshgrid arrays. *)
Definition gaussian_psf (x y : list (list R)) (w0 : R) : list (list R) :=
  Np.elementwise (gaussian_psf_at w0) x y.

(** The optional argument [m=1] is [None] when the caller omits it. *)
Definition laguerre_gaussian_donut (x y : list (list R)) (w : R)
    (m : option Z) : list (list R) :=
  Np.elementwise (laguerre_gaussian_donut_at w (default 1%Z m)) x y.

Definition effective_psf (exc_psf sted_psf : list (list R)) (I_s I0_sted : R)
    : list (list R) :=
  Np.elementwise (effective_psf_at I_s I0_sted) exc_psf sted_psf.

End PsfFunctions.

(** ** Vocabulary of the specification *)

Module Spec.
Import Py.

(** A parameter lies in the closed interval [[lo, hi]] of the table of valid
    ranges: it is a finite number between the two bounds. *)
Definition in_range (lo hi : Q) (v : num) : Prop :=
  exists q, value v = Some q /\ (lo <= q /\ q <= hi)%Q.

(** The largest entry of a 2D field. *)
Definition is_max (field : list (list Q)) (m : Q) : Prop :=
  (exists i j, Np.item field i j = Some m)
  /\ forall i j v, Np.item field i j = Some v -> (v <= m)%Q.

(** Position [(i, j)] holds a value greater than or equal to half of [m]. *)
Definition at_half_max (field : list (list Q)) (m : Q) (i j : nat) : Prop :=
  exists v, Np.item field i j = Some v /\ (m / 2 <= v)%Q.

(** [w] is the span, along the first axis, of the positions at or above half
    of [m]: the largest row index of such a position minus the smallest. *)
Definition is_span (field : list (list Q)) (m : Q) (w : Z) : Prop :=
  exists i_min j_min i_max j_max,
    at_half_max field m i_min j_min
    /\ at_half_max field m i_max j_max
    /\ (forall i j, at_half_max field m i j -> i_min <= i <= i_max)
    /\ w = (Z.of_nat i_max - Z.of_nat i_min)%Z.

(** Every entry of the field is zero. *)
Definition all_zero (field : list (list Q)) : Prop :=
  forall i j v, Np.item field i j = Some v -> (v == 0)%Q.

End Spec.

(** ** Small fields and coordinate arrays used as concrete inputs *)
Module Fields.

(** A single bright pixel in the middle of a dark 3x3 field. *)
Definition single_peak : list (list Q) := [[0; 0; 0]; [0; 1; 0]; [0; 0; 0]]%Q.

(** A 2x2 field of zeros. *)
Definition zeros : list (list Q) := [[0; 0]; [0; 0]]%Q.

(** A 3x3 spot that is three pixels wide at half maximum. *)
Definition spot : list (list Q) :=
  [[0; 1 # 2; 0]; [3 # 5; 1; 0]; [0; 1 # 3; 1 # 2]]%Q.

(** A field that holds a negative value only. *)
Definition negative : list (list Q) := [[-1]]%Q.

Definition negative_pair : list (list Q) := [[-1; -2]]%Q.

(** The 1x3 coordinate arrays of the test of the Gaussian profile: three
    points on the x axis, at -w0, 0 and w0 for w0 = 100. *)
Definition axis_x : list (list R) := [[-100; 0; 100]]%R.
Definition axis_y : list (list R) := [[0; 0; 0]]%R.

(** An excitation field and a depletion field of two pixels. *)
Definition excitation : list (list R) := [[1; 1 / 2]]%R.
Definition depletion : list (list R) := [[0; 1]]%R.

End Fields.

(** ** start.py: the guards of [validate_parameters] as a table *)

Module Guards.
Import Py.

(** The seven guards in the order the function runs them: key, lower
    bound, upper bound, text of the expected range. *)
Definition table : list (string * num * num * string) :=
  [("lambda_exc", Int 400, Int 700, "400–700 nm");
   ("lambda_sted", Int 710, Int 850, "710–850 nm");
   ("NA", Float (Finite (1 # 2)), Float (Finite (149 # 100)), "0.5–1.49");
   ("I_s", Float (Finite (1 # 10)), Float (Finite 5), "0.1–5.0");
   ("I0_sted", Int 0, Int 100, "0–100");
   ("grid_size", Int 256, Int 1000, "256–1000");
   ("extent_nm", Int 500, Int 2000, "500–2000")].

(** The keys [validate_parameters] reads. *)
Definition names : list string :=
  ["lambda_exc"; "lambda_sted"; "NA"; "I_s"; "I0_sted"; "grid_size"; "extent_nm"].

Definition run (params : gmap string num) (g : string * num * num * string)
    : result unit :=
  let '(f, lo, hi, expected) := g in Start.check params f lo hi expected.

(** Running a list of guards in order, stopping at the first that raises. *)
Fixpoint run_all (params : gmap string num)
    (gs : list (string * num * num * string)) : result unit :=
  match gs with
  | [] => Ok tt
  | g :: gs' => let! _ := run params g in run_all params gs'
  end.

(** A guard passes: the key is present and its value within the bounds. *)
Definition passes (params : gmap string num) (g : string * num * num * string)
    : Prop :=
  let '(f, lo, hi, _) := g in
  exists v, params !! f = Some v /\ le lo v = true /\ le v hi = true.

End Guards.

(** ** start.py: [read_config_file] *)

Module Config.

(** The exceptions that can reach [read_config_file]: those of
    [configparser], the built-in ones, and any other class. *)
Inductive exn : Type :=
| NoSectionError (section : string)
| NoOptionError (option section : string)
| Builtin (e : Py.exn)
| Other (class : string).

Inductive outcome (A : Type) : Type :=
| Return (a : A)
| Throw (e : exn).
Arguments Return {A} a.
Arguments Throw {A} e.

Definition bind {A B} (r : outcome A) (k : A -> outcome B) : outcome B :=
  match r with
  | Return a => k a
  | Throw e => Throw e
  end.

(** A line written by [print(f"Error reading configuration: {e}")]. *)
Inductive printed : Type :=
| ErrorReading (e : exn).

(** [except (configparser.NoOptionError, ValueError)]. *)
Definition caught (e : exn) : bool :=
  match e with
  | NoOptionError _ _ => true
  | Builtin (Py.ValueError _) => true
  | _ => false
  end.

(** How an option is converted: [float(...)] or [int(...)]. *)
Inductive conversion : Type :=
| AsFloat
| AsInt.

(** The options of section [settings], in the order they are read. *)
Definition settings : list (string * conversion) :=
  [("lambda_exc", AsFloat); ("lambda_sted", AsFloat); ("NA", AsFloat);
   ("I_s", AsFloat); ("I0_sted", AsFloat); ("grid_size", AsInt);
   ("extent_nm", AsInt)].

End Config.

Notation "'try!' x ':=' r 'in' k" := (Config.bind r (fun x => k))
  (at level 10, x pattern, r at level 100, k at level 200).

Module ReadConfig.
Import Config.

Section ReadConfigFile.

(** The collaborators of the function: the parser object after
    [config.read(path)], its [get(section, option)], and the conversions
    [float] and [int] of a string. *)
Context {config : Type}.
Variable read : outcome config.
Variable get : config -> string -> string -> outcome string.
Variable float_of : string -> outcome Py.float.
Variable int_of : string -> outcome Z.

(** [params[name] = float(config.get('settings', name))]. *)
Definition set_float (cfg : config) (name : string)
    (params : gmap string Py.num) : outcome (gmap string Py.num) :=
  try! s := get cfg "settings" name in
  try! f := float_of s in
  Return (<[name := Py.Float f]> params).

(** [params[name] = int(config.get('settings', name))]. *)
Definition set_int (cfg : config) (name : string)
    (params : gmap string Py.num) : outcome (gmap string Py.num) :=
  try! s := get cfg "settings" name in
  try! z := int_of s in
  Return (<[name := Py.Int z]> params).

(** The body of the [try] block. *)
Definition read_settings (cfg : config) : outcome (gmap string Py.num) :=
  try! params := set_float cfg "lambda_exc" ∅ in
  try! params := set_float cfg "lambda_sted" params in
  try! params := set_float cfg "NA" params in
  try! params := set_float cfg "I_s" params in
  try! params := set_float cfg "I0_sted" params in
  try! params := set_int cfg "grid_size" params in
  set_int cfg "extent_nm" params.

(** The function returns what it printed and either a dictionary, [None],
    or an exception. *)
Definition read_config_file
    : list printed * outcome (option (gmap string Py.num)) :=
  match read with
  | Throw e => ([], Throw e)
  | Return cfg =>
      match read_settings cfg with
      | Throw e =>
          if caught e then ([ErrorReading e], Return None) else ([], Throw e)
      | Return params =>
          match Start.validate_parameters params with
          | Py.Raise e => ([], Throw (Builtin e))
          | Py.Ok _ => ([], Return (Some params))
          end
      end
  end.

(** One assignment of the [try] block, by the conversion it uses. *)
Definition set_option (cfg : config) (o : string * conversion)
    (params : gmap string Py.num) : outcome (gmap string Py.num) :=
  match snd o with
  | AsFloat => set_float cfg (fst o) params
  | AsInt => set_int cfg (fst o) params
  end.

Fixpoint set_options (cfg : config) (os : list (string * conversion))
    (params : gmap string Py.num) : outcome (gmap string Py.num) :=
  match os with
  | [] => Return params
  | o :: os' =>
      try! params' := set_option cfg o params in set_options cfg os' params'
  end.

(** The option can be fetched and converted. *)
Definition readable (cfg : config) (o : string * conversion) : Prop :=
  exists s, get cfg "settings" (fst o) = Return s
            /\ match snd o with
               | AsFloat => exists f, float_of s = Return f
               | AsInt => exists z, int_of s = Return z
               end.

(** Fetching or converting the option raises [e]. *)
Definition fails (cfg : config) (o : string * conversion) (e : exn) : Prop :=
  get cfg "settings" (fst o) = Throw e
  \/ exists s, get cfg "settings" (fst o) = Return s
               /\ match snd o with
                  | AsFloat => float_of s = Throw e
                  | AsInt => int_of s = Throw e
                  end.

End ReadConfigFile.

End ReadConfig.

(** A configuration held in memory, for concrete inputs: sections of
    options, both looked up by name; numerals are converted by table. *)
Module MemoryConfig.
Import Config.

Definition get (cfg : gmap string (gmap string string)) (section name : string)
    : outcome string :=
  match cfg !! section with
  | None => Throw (NoSectionError section)
  | Some options =>
      match options !! name with
      | None => Throw (NoOptionError name section)
      | Some s => Return s
      end
  end.

Definition float_of (s : string) : outcome Py.float :=
  if decide (s = "650") then Return (Py.Finite 650)
  else if decide (s = "750") then Return (Py.Finite 750)
  else if decide (s = "1.3") then Return (Py.Finite (13 # 10))
  else if decide (s = "2") then Return (Py.Finite 2)
  else if decide (s = "25") then Return (Py.Finite 25)
  else Throw (Builtin (Py.ValueError (Py.Text "could not convert string to float"))).

Definition int_of (s : string) : outcome Z :=
  if decide (s = "500") then Return 500%Z
  else if decide (s = "1000") then Return 1000%Z
  else Throw (Builtin (Py.ValueError (Py.Text "invalid literal for int() with base 10"))).

Definition complete : gmap string (gmap string string) :=
  {[ "settings" :=
       list_to_map
         [("lambda_exc", "650"); ("lambda_sted", "750"); ("NA", "1.3");
          ("I_s", "2"); ("I0_sted", "25"); ("grid_size", "500");
          ("extent_nm", "1000")] ]}.

(** The dictionary [read_config_file] builds from [complete]. *)
Definition expected : gmap string Py.num :=
  list_to_map
    [("lambda_exc", Py.Float (Py.Finite 650));
     ("lambda_sted", Py.Float (Py.Finite 750));
     ("NA", Py.Float (Py.Finite (13 # 10))); ("I_s", Py.Float (Py.Finite 2));
     ("I0_sted", Py.Float (Py.Finite 25)); ("grid_size", Py.Int 500);
     ("extent_nm", Py.Int 1000)].

(** The same file without the line of [NA]. *)
Definition without_NA : gmap string (gmap string string) :=
  {[ "settings" :=
       list_to_map
         [("lambda_exc", "650"); ("lambda_sted", "750");
          ("I_s", "2"); ("I0_sted", "25"); ("grid_size", "500");
          ("extent_nm", "1000")] ]}.

End MemoryConfig.

(** ** Array operations of main.py *)

Module Arrays.
Import Py.

(** [np.linspace(start, stop, num)]: [num] evenly spaced samples with both
    ends included; a negative [num] raises. *)
Definition linspace (start stop : R) (num : Z) : result (list R) :=
  if (num <? 0)%Z
  then Raise (ValueError (Text
         ("Number of samples, " ++ pretty num ++ ", must be non-negative.")))
  else
    let step := ((stop - start) / (IZR num - 1))%R in
    Ok (map (fun i => (start + INR i * step)%R) (seq 0 (Z.to_nat num))).

(** [np.meshgrid(a, b)]: row [i] of the first array is [a], row [i] of the
    second is [b[i]] repeated. *)
Definition meshgrid (a b : list R) : list (list R) * list (list R) :=
  (map (fun _ => a) b, map (fun v => map (fun _ => v) a) b).

(** [a.max()] of an array of reals. *)
Definition amax (a : list (list R)) : result R :=
  Np.reduce Rmax "maximum" (concat a).

End Arrays.

(** ** source/main.py: grid and normalisation *)

Module Main.
Import Py.

(** [xy = np.linspace(-extent_nm/2, extent_nm/2, grid_size)] and
    [x, y = np.meshgrid(xy, xy)]. *)
Definition grid (extent_nm : R) (grid_size : Z)
    : result (list (list R) * list (list R)) :=
  let! xy := Arrays.linspace ((- extent_nm) / 2)%R (extent_nm / 2)%R grid_size in
  Ok (Arrays.meshgrid xy xy).

(** [psf /= psf.max()].  The reals have no [nan] or [inf]: the model
    stands for the code when the maximum is not zero. *)
Definition normalize (psf : list (list R)) : result (list (list R)) :=
  let! psf_max := Arrays.amax psf in
  Ok (map (map (fun v => (v / psf_max)%R)) psf).

End Main.

(** * Parameter validation *)

Section Validation.
Import Py Start Spec.

Lemma bind_Ok_inv {A B} (r : result A) (k : A -> result B) (b : B) :
  bind r k = Ok b -> exists a, r = Ok a /\ k a = Ok b.
Proof. destruct r as [a|e]; simpl; [eauto | discriminate]. Qed.

(** The chained comparison [lo <= v <= hi] decides membership in the
    closed interval. *)
Lemma chained_le_in_range (lo hi v : num) (a b : Q) :
  value lo = Some a -> value hi = Some b ->
  le lo v && le v hi = true <-> in_range a b v.
Proof.
  unfold in_range, value, le. intros Hlo Hhi.
  destruct (as_float lo) as [a'| | |]; try discriminate.
  destruct (as_float hi) as [b'| | |]; try discriminate.
  injection Hlo as ->. injection Hhi as ->.
  rewrite andb_true_iff.
  destruct (as_float v) as [q| | |]; simpl.
  - rewrite !Qle_bool_iff. split.
    + intros [? ?]. exists q. repeat split; assumption.
    + intros (q' & [= <-] & ? & ?). split; assumption.
  - split; [intros [_ [=]] | intros (q' & [=] & _)].
  - split; [intros [[=] _] | intros (q' & [=] & _)].
  - split; [intros [[=] _] | intros (q' & [=] & _)].
Qed.

Lemma check_present (params : gmap string num) f lo hi expected v :
  params !! f = Some v ->
  check params f lo hi expected =
    if le lo v && le v hi then Ok tt
    else Raise (ValueError (Invalid f v expected)).
Proof.
  intros Hv. unfold check, getitem. rewrite Hv. simpl.
  destruct (le lo v && le v hi); reflexivity.
Qed.

Lemma check_Ok_inv (params : gmap string num) f lo hi expected u :
  check params f lo hi expected = Ok u ->
  exists v, params !! f = Some v /\ le lo v = true /\ le v hi = true.
Proof.
  unfold check, getitem. destruct (params !! f) as [v|]; simpl; [|discriminate].
  destruct (le lo v) eqn:Hlo, (le v hi) eqn:Hhi; simpl; try discriminate.
  eauto.
Qed.

(** A number at most 700 is strictly below a number at least 710. *)
Lemma disjoint_wavelength_ranges (v1 v2 : num) :
  le (Int 400) v1 = true -> le v1 (Int 700) = true ->
  le (Int 710) v2 = true -> le v2 (Int 850) = true ->
  lt v1 v2 = true.
Proof.
  unfold le, lt. simpl (as_float (Int _)).
  destruct (as_float v1) as [p| | |], (as_float v2) as [q| | |]; simpl;
    try discriminate; try reflexivity.
  rewrite !Qle_bool_iff. intros _ Hp Hq _.
  destruct (Qle_bool q p) eqn:Hqp; [|reflexivity].
  apply Qle_bool_iff in Hqp.
  assert (H : (inject_Z 710 <= inject_Z 700)%Q)
    by (eapply Qle_trans; [exact Hq | eapply Qle_trans; eassumption]).
  rewrite <- Zle_Qle in H. lia.
Qed.

End Validation.

Ltac name_range R r :=
  match type of R with
  | ?b = true <-> _ => change (b = true <-> r) in R
  end.

Ltac split_range R :=
  match type of R with
  | ?b = true <-> _ => destruct b; simpl
  end.

(** C3. [validate_parameters] returns normally exactly when each of the seven
    parameters lies in its closed interval (bounds included); otherwise it
    raises the [ValueError] of the first parameter out of range, in the order
    lambda_exc, lambda_sted, NA, I_s, I0_sted, grid_size, extent_nm, and the
    error carries the parameter's name, its value and the expected range. *)
Theorem validate_parameters_first_violation
    (params : gmap string Py.num) (v1 v2 v3 v4 v5 v6 v7 : Py.num) :
  params !! "lambda_exc" = Some v1 ->
  params !! "lambda_sted" = Some v2 ->
  params !! "NA" = Some v3 ->
  params !! "I_s" = Some v4 ->
  params !! "I0_sted" = Some v5 ->
  params !! "grid_size" = Some v6 ->
  params !! "extent_nm" = Some v7 ->
  let r1 := Spec.in_range 400 700 v1 in
  let r2 := Spec.in_range 710 850 v2 in
  let r3 := Spec.in_range (1 # 2) (149 # 100) v3 in
  let r4 := Spec.in_range (1 # 10) 5 v4 in
  let r5 := Spec.in_range 0 100 v5 in
  let r6 := Spec.in_range 256 1000 v6 in
  let r7 := Spec.in_range 500 2000 v7 in
  let raises f v e :=
    Start.validate_parameters params = Py.Raise (Py.ValueError (Py.Invalid f v e)) in
  (Start.validate_parameters params = Py.Ok tt
   <-> r1 /\ r2 /\ r3 /\ r4 /\ r5 /\ r6 /\ r7)
  /\ (~ r1 -> raises "lambda_exc" v1 "400–700 nm")
  /\ (r1 -> ~ r2 -> raises "lambda_sted" v2 "710–850 nm")
  /\ (r1 -> r2 -> ~ r3 -> raises "NA" v3 "0.5–1.49")
  /\ (r1 -> r2 -> r3 -> ~ r4 -> raises "I_s" v4 "0.1–5.0")
  /\ (r1 -> r2 -> r3 -> r4 -> ~ r5 -> raises "I0_sted" v5 "0–100")
  /\ (r1 -> r2 -> r3 -> r4 -> r5 -> ~ r6 -> raises "grid_size" v6 "256–1000")
  /\ (r1 -> r2 -> r3 -> r4 -> r5 -> r6 -> ~ r7
      -> raises "extent_nm" v7 "500–2000").
Proof.
  intros H1 H2 H3 H4 H5 H6 H7 r1 r2 r3 r4 r5 r6 r7 raises.
  subst raises. unfold Start.validate_parameters.
  rewrite (check_present _ _ _ _ _ _ H1), (check_present _ _ _ _ _ _ H2),
    (check_present _ _ _ _ _ _ H3), (check_present _ _ _ _ _ _ H4),
    (check_present _ _ _ _ _ _ H5), (check_present _ _ _ _ _ _ H6),
    (check_present _ _ _ _ _ _ H7).
  pose proof (chained_le_in_range (Py.Int 400) (Py.Int 700) v1 _ _ eq_refl eq_refl) as R1.
  pose proof (chained_le_in_range (Py.Int 710) (Py.Int 850) v2 _ _ eq_refl eq_refl) as R2.
  pose proof (chained_le_in_range (Py.Float (Py.Finite (1 # 2)))
                (Py.Float (Py.Finite (149 # 100))) v3 _ _ eq_refl eq_refl) as R3.
  pose proof (chained_le_in_range (Py.Float (Py.Finite (1 # 10)))
                (Py.Float (Py.Finite 5)) v4 _ _ eq_refl eq_refl) as R4.
  pose proof (chained_le_in_range (Py.Int 0) (Py.Int 100) v5 _ _ eq_refl eq_refl) as R5.
  pose proof (chained_le_in_range (Py.Int 256) (Py.Int 1000) v6 _ _ eq_refl eq_refl) as R6.
  pose proof (chained_le_in_range (Py.Int 500) (Py.Int 2000) v7 _ _ eq_refl eq_refl) as R7.
  name_range R1 r1. name_range R2 r2. name_range R3 r3. name_range R4 r4.
  name_range R5 r5. name_range R6 r6. name_range R7 r7.
  clearbody r1 r2 r3 r4 r5 r6 r7.
  split_range R1; [|intuition congruence].
  split_range R2; [|intuition congruence].
  split_range R3; [|intuition congruence].
  split_range R4; [|intuition congruence].
  split_range R5; [|intuition congruence].
  split_range R6; [|intuition congruence].
  split_range R7; intuition congruence.
Qed.

Lemma validate_parameters_first_violation_witness :
  Start.validate_parameters Start.valid_params = Py.Ok tt
  <-> Spec.in_range 400 700 (Py.Int 650)
      /\ Spec.in_range 710 850 (Py.Int 750)
      /\ Spec.in_range (1 # 2) (149 # 100) (Py.Float (Py.Finite (13 # 10)))
      /\ Spec.in_range (1 # 10) 5 (Py.Int 2)
      /\ Spec.in_range 0 100 (Py.Int 25)
      /\ Spec.in_range 256 1000 (Py.Int 500)
      /\ Spec.in_range 500 2000 (Py.Int 1000).
Proof.
  apply (validate_parameters_first_violation Start.valid_params
           (Py.Int 650) (Py.Int 750) (Py.Float (Py.Finite (13 # 10)))
           (Py.Int 2) (Py.Int 25) (Py.Int 500) (Py.Int 1000));
    vm_compute; reflexivity.
Defined.

(** Bounds are inclusive, and one unit outside is rejected (the values of
    the validation tests). *)
Example validate_boundary_values :
  Start.validate_parameters
    (<["NA" := Py.Float (Py.Finite (1 # 2))]>
       (<["grid_size" := Py.Int 256]>
          (<["extent_nm" := Py.Int 2000]> Start.valid_params))) = Py.Ok tt
  /\ Start.validate_parameters
       (<["NA" := Py.Float (Py.Finite (149 # 100))]>
          (<["grid_size" := Py.Int 1000]>
             (<["extent_nm" := Py.Int 500]> Start.valid_params))) = Py.Ok tt.
Proof. split; vm_compute; reflexivity. Qed.

Example validate_reports_first_field :
  Start.validate_parameters
    (<["grid_size" := Py.Int 1001]>
       (<["extent_nm" := Py.Int 499]> Start.valid_params))
  = Py.Raise (Py.ValueError (Py.Invalid "grid_size" (Py.Int 1001) "256–1000")).
Proof. vm_compute. reflexivity. Qed.

Example validate_rejects_nan :
  Start.validate_parameters (<["NA" := Py.Float Py.NaN]> Start.valid_params)
  = Py.Raise (Py.ValueError (Py.Invalid "NA" (Py.Float Py.NaN) "0.5–1.49")).
Proof. vm_compute. reflexivity. Qed.

(** C9. Every parameter set that [validate_parameters] accepts has
    lambda_sted strictly greater than lambda_exc: both are finite numbers,
    the first at most 700 and the second at least 710, although no guard of
    the function compares the two. *)
Theorem validated_sted_exceeds_exc (params : gmap string Py.num) :
  Start.validate_parameters params = Py.Ok tt ->
  exists v_exc v_sted q_exc q_sted,
    params !! "lambda_exc" = Some v_exc
    /\ params !! "lambda_sted" = Some v_sted
    /\ Py.value v_exc = Some q_exc
    /\ Py.value v_sted = Some q_sted
    /\ (q_exc < q_sted)%Q
    /\ Py.lt v_exc v_sted = true.
Proof.
  intros H. unfold Start.validate_parameters in H.
  apply bind_Ok_inv in H as (u1 & Hc1 & H).
  apply bind_Ok_inv in H as (u2 & Hc2 & _).
  apply check_Ok_inv in Hc1 as (v1 & L1 & A1 & B1).
  apply check_Ok_inv in Hc2 as (v2 & L2 & A2 & B2).
  assert (R1 : Spec.in_range 400 700 v1).
  { apply (chained_le_in_range (Py.Int 400) (Py.Int 700)); try reflexivity.
    rewrite A1, B1. reflexivity. }
  assert (R2 : Spec.in_range 710 850 v2).
  { apply (chained_le_in_range (Py.Int 710) (Py.Int 850)); try reflexivity.
    rewrite A2, B2. reflexivity. }
  destruct R1 as (q1 & V1 & _ & U1). destruct R2 as (q2 & V2 & U2 & _).
  exists v1, v2, q1, q2. repeat split; try assumption.
  - apply Qle_lt_trans with (y := 700%Q); [exact U1|].
    apply Qlt_le_trans with (y := 710%Q); [reflexivity | exact U2].
  - eapply disjoint_wavelength_ranges; eassumption.
Qed.

Lemma validated_sted_exceeds_exc_witness :
  exists v_exc v_sted q_exc q_sted,
    Start.valid_params !! "lambda_exc" = Some v_exc
    /\ Start.valid_params !! "lambda_sted" = Some v_sted
    /\ Py.value v_exc = Some q_exc
    /\ Py.value v_sted = Some q_sted
    /\ (q_exc < q_sted)%Q
    /\ Py.lt v_exc v_sted = true.
Proof.
  apply (validated_sted_exceeds_exc Start.valid_params).
  vm_compute. reflexivity.
Defined.

(** * Reductions and [np.where] *)

Section Reduce.
Context {A : Type} (op : A -> A -> A) (below : A -> A -> Prop).
Hypothesis below_refl : forall a, below a a.
Hypothesis below_trans : forall a b c, below a b -> below b c -> below a c.
Hypothesis op_selects : forall a b, op a b = a \/ op a b = b.
Hypothesis op_left : forall a b, below a (op a b).
Hypothesis op_right : forall a b, below b (op a b).

Lemma foldl_extremum (l : list A) : forall x,
  In (foldl op x l) (x :: l)
  /\ forall y, In y (x :: l) -> below y (foldl op x l).
Proof.
  induction l as [|z l IH]; intros x; simpl.
  - split; [left; reflexivity|]. intros y [<-|[]]. apply below_refl.
  - destruct (IH (op x z)) as [Hin Hub]. split.
    + destruct Hin as [Heq|Hin]; [|right; right; exact Hin].
      rewrite <- Heq. destruct (op_selects x z) as [->| ->]; auto.
    + intros y [<-|[<-|Hy]].
      * eapply below_trans; [apply op_left|]. apply Hub. left. reflexivity.
      * eapply below_trans; [apply op_right|]. apply Hub. left. reflexivity.
      * apply Hub. right. exact Hy.
Qed.

Lemma reduce_extremum (name : string) (l : list A) :
  l <> [] ->
  exists m, Np.reduce op name l = Py.Ok m
            /\ In m l /\ forall y, In y l -> below y m.
Proof.
  destruct l as [|x l]; [congruence|]. intros _.
  exists (foldl op x l). split; [reflexivity|]. apply foldl_extremum.
Qed.

End Reduce.

Section Where.

Lemma where_row_spec (i : nat) (row : list bool) : forall k p,
  In p (Np.where_row i k row)
  <-> exists j, p = (i, k + j) /\ row !! j = Some true.
Proof.
  induction row as [|b row IH]; intros k p; simpl.
  - split; [intros [] | intros (j & _ & [=])].
  - assert (Hrest : In p (Np.where_row i (S k) row)
                    <-> exists j, p = (i, k + S j) /\ row !! j = Some true).
    { rewrite IH. split; intros (j & -> & Hj); exists j; split; auto; f_equal; lia. }
    destruct b; simpl; rewrite Hrest; split.
    + intros [<-|(j & -> & Hj)]; [exists 0 | exists (S j)]; split; auto;
        f_equal; lia.
    + intros ([|j] & -> & Hj); [left; f_equal; lia | right; eauto].
    + intros (j & -> & Hj). exists (S j). auto.
    + intros ([|j] & -> & Hj); [discriminate Hj | eauto].
Qed.

Lemma where_rows_spec (mask : list (list bool)) : forall k p,
  In p (Np.where_rows k mask)
  <-> exists i j, p = (k + i, j) /\ Np.item mask i j = Some true.
Proof.
  induction mask as [|row mask IH]; intros k p; simpl.
  - split; [intros [] | intros (i & j & _ & [=])].
  - rewrite in_app_iff, where_row_spec, IH. split.
    + intros [(j & -> & Hj)|(i & j & -> & Hij)].
      * exists 0, j. split; [f_equal; lia | exact Hj].
      * exists (S i), j. split; [f_equal; lia | exact Hij].
    + intros ([|i] & j & -> & Hij).
      * left. exists j. split; [f_equal; lia | exact Hij].
      * right. exists i, j. split; [f_equal; lia | exact Hij].
Qed.

(** The first component of [np.where] lists exactly the rows that hold a
    true entry. *)
Lemma where_first_axis (mask : list (list bool)) (i : nat) :
  In i (fst (Np.where_ mask)) <-> exists j, Np.item mask i j = Some true.
Proof.
  unfold Np.where_. simpl. rewrite in_map_iff. split.
  - intros ([i' j] & <- & Hin). apply where_rows_spec in Hin as (a & b & [= -> ->] & H).
    exists b. exact H.
  - intros (j & Hj). exists (i, j). split; [reflexivity|].
    apply where_rows_spec. exists i, j. auto.
Qed.

Lemma lookup_map {A B} (g : A -> B) (l : list A) : forall i,
  map g l !! i = g <$> l !! i.
Proof. induction l as [|x l IH]; intros [|i]; simpl; auto. Qed.

Lemma item_map {A B} (g : A -> B) (a : list (list A)) (i j : nat) :
  Np.item (map (map g) a) i j = g <$> Np.item a i j.
Proof.
  unfold Np.item. rewrite lookup_map. destruct (a !! i) as [row|]; simpl; auto.
  apply lookup_map.
Qed.

Lemma in_concat_item {A} (a : list (list A)) (v : A) :
  In v (concat a) <-> exists i j, Np.item a i j = Some v.
Proof.
  induction a as [|row a IH]; simpl.
  - split; [intros [] | intros (i & j & [=])].
  - rewrite in_app_iff, IH. split.
    + intros [Hv|(i & j & H)].
      * apply list_elem_of_In, list_elem_of_lookup in Hv as [j Hj]. exists 0, j. exact Hj.
      * exists (S i), j. exact H.
    + intros ([|i] & j & H).
      * left. apply list_elem_of_In, list_elem_of_lookup. exists j. exact H.
      * right. eauto.
Qed.

End Where.

(** * Full width at half maximum *)

Section Fwhm.
Import Py Spec ResolutionFunctions.

Lemma Qmax_selects (a b : Q) : Qmax a b = a \/ Qmax a b = b.
Proof.
  unfold Qmax, GenericMinMax.gmax. destruct (a ?= b)%Q; auto.
Qed.

Lemma np_max_is_max (field : list (list Q)) :
  concat field <> [] ->
  exists m, Np.max (concat field) = Ok m /\ is_max field m.
Proof.
  intros Hne.
  destruct (reduce_extremum Qmax Qle Qle_refl Qle_trans Qmax_selects
              Q.le_max_l Q.le_max_r "maximum" (concat field) Hne)
    as (m & Hm & Hin & Hub).
  exists m. split; [exact Hm|]. split.
  - apply in_concat_item. exact Hin.
  - intros i j v Hv. apply Hub, in_concat_item. eauto.
Qed.

Lemma is_max_nonempty (field : list (list Q)) (m : Q) :
  is_max field m -> concat field <> [].
Proof.
  intros [(i & j & Hm) _] Hnil.
  assert (Hin : In m (concat field)) by (apply in_concat_item; eauto).
  rewrite Hnil in Hin. destruct Hin.
Qed.

Lemma is_max_unique (field : list (list Q)) (m m' : Q) :
  is_max field m -> is_max field m' -> (m == m')%Q.
Proof.
  intros [(i & j & Hm) Hub] [(i' & j' & Hm') Hub'].
  apply Qle_antisym; eauto.
Qed.

Lemma at_half_max_proper (field : list (list Q)) (m m' : Q) (i j : nat) :
  (m == m')%Q -> at_half_max field m i j -> at_half_max field m' i j.
Proof.
  intros Heq (v & Hv & Hle). exists v. split; [exact Hv|].
  rewrite <- Heq. exact Hle.
Qed.

(** The rows [np.where(psf >= half_max)] reports are the rows that hold a
    position at or above the half maximum. *)
Lemma where_half_max (psf : list (list Q)) (m : Q) (i : nat) :
  In i (fst (Np.where_ (map (map (Qle_bool (m / 2))) psf)))
  <-> exists j, at_half_max psf m i j.
Proof.
  rewrite where_first_axis. unfold at_half_max.
  split; intros (j & H); exists j; rewrite item_map in *.
  - destruct (Np.item psf i j) as [v|]; [|discriminate].
    exists v. split; [reflexivity|]. apply Qle_bool_iff. injection H as H. exact H.
  - destruct H as (v & -> & Hle). simpl. f_equal. apply Qle_bool_iff. exact Hle.
Qed.

Lemma max_selects (a b : nat) : Nat.max a b = a \/ Nat.max a b = b.
Proof. destruct (Nat.max_dec a b); auto. Qed.

Lemma min_selects (a b : nat) : Nat.min a b = a \/ Nat.min a b = b.
Proof. destruct (Nat.min_dec a b); auto. Qed.

Lemma index_extrema (rows : list nat) :
  rows <> [] ->
  exists hi lo,
    Np.max_index rows = Ok hi /\ Np.min_index rows = Ok lo
    /\ In hi rows /\ In lo rows
    /\ forall i, In i rows -> lo <= i <= hi.
Proof.
  intros Hne.
  destruct (reduce_extremum Nat.max Peano.le Nat.le_refl Nat.le_trans
              max_selects
              Nat.le_max_l Nat.le_max_r "maximum" rows Hne)
    as (hi & Hhi & Hin_hi & Hub).
  destruct (reduce_extremum Nat.min (fun a b => b <= a)
              (fun a => Nat.le_refl a)
              (fun a b c Hab Hbc => Nat.le_trans _ _ _ Hbc Hab)
              min_selects
              Nat.le_min_l Nat.le_min_r "minimum" rows Hne)
    as (lo & Hlo & Hin_lo & Hlb).
  exists hi, lo. repeat split; auto.
Qed.

(** What [fwhm] does on a field with maximum [m]: either some position is
    at or above half of [m], and the result is the span of the rows of
    such positions, or none is, and the reduction over the empty index
    array raises. *)
Lemma fwhm_cases (psf : list (list Q)) (m : Q) :
  is_max psf m ->
  (exists hi lo j_hi j_lo,
      fwhm psf = Ok (Z.of_nat hi - Z.of_nat lo)%Z
      /\ at_half_max psf m hi j_hi /\ at_half_max psf m lo j_lo
      /\ forall i j, at_half_max psf m i j -> lo <= i <= hi)
  \/ ((exists e, fwhm psf = Raise e)
      /\ forall i j, ~ at_half_max psf m i j).
Proof.
  intros Hmax.
  destruct (np_max_is_max psf (is_max_nonempty _ _ Hmax)) as (m0 & Hm0 & Hmax0).
  assert (Heq : (m0 == m)%Q) by (eapply is_max_unique; eassumption).
  set (rows := fst (Np.where_ (map (map (Qle_bool (m0 / 2))) psf))).
  assert (Hf : fwhm psf =
               let! hi := Np.max_index rows in
               let! lo := Np.min_index rows in
               Ok (Z.of_nat hi - Z.of_nat lo)%Z)
    by (unfold fwhm; rewrite Hm0; reflexivity).
  rewrite Hf. clear Hf.
  assert (Hrows : forall i, In i rows <-> exists j, at_half_max psf m i j).
  { intros i. unfold rows. rewrite where_half_max.
    split; intros (j & H); exists j; eapply at_half_max_proper; try eassumption.
    symmetry. exact Heq. }
  clearbody rows. destruct rows as [|r rest].
  - right. split; [simpl; eauto|].
    intros i j H. apply (Hrows i). eauto.
  - left. destruct (index_extrema (r :: rest)) as (hi & lo & -> & -> & Hhi & Hlo & Hb);
      [discriminate|].
    apply Hrows in Hhi as (j_hi & Hhi). apply Hrows in Hlo as (j_lo & Hlo).
    exists hi, lo, j_hi, j_lo. simpl. repeat split; auto.
    all: apply Hb, Hrows; eauto.
Qed.

Lemma fwhm_span_iff (psf : list (list Q)) (m : Q) (w : Z) :
  is_max psf m -> fwhm psf = Ok w <-> is_span psf m w.
Proof.
  intros Hmax.
  destruct (fwhm_cases psf m Hmax)
    as [(hi & lo & j_hi & j_lo & Hf & Hhi & Hlo & Hb)|[(e & Hf) Hnone]];
    rewrite Hf.
  - split.
    + intros [= <-]. exists lo, j_lo, hi, j_hi. auto.
    + intros (i1 & j1 & i2 & j2 & H1 & H2 & Hb' & ->).
      pose proof (Hb _ _ H1). pose proof (Hb _ _ H2).
      pose proof (Hb' _ _ Hhi). pose proof (Hb' _ _ Hlo).
      f_equal. lia.
  - split; [discriminate|].
    intros (i1 & j1 & _ & _ & H1 & _). destruct (Hnone _ _ H1).
Qed.

(** With a non-negative maximum the position of the maximum itself is at or
    above half of it, so [fwhm] returns. *)
Lemma fwhm_returns (psf : list (list Q)) (m : Q) :
  is_max psf m -> (0 <= m)%Q -> exists w, fwhm psf = Ok w.
Proof.
  intros Hmax Hm.
  destruct (fwhm_cases psf m Hmax)
    as [(hi & lo & j_hi & j_lo & Hf & _)|[_ Hnone]]; [eauto|].
  destruct Hmax as [(i & j & Hij) _]. destruct (Hnone i j).
  exists m. split; [exact Hij|].
  apply Qle_shift_div_r; [reflexivity | Lqa.lra].
Qed.

Lemma np_max_sound (psf : list (list Q)) (m : Q) :
  Np.max (concat psf) = Ok m -> is_max psf m.
Proof.
  intros Hm. destruct (concat psf) as [|x l] eqn:E; [discriminate|].
  destruct (np_max_is_max psf) as (m' & Hm' & Hmax); [congruence|].
  rewrite E, Hm in Hm'. injection Hm' as <-. exact Hmax.
Qed.

Lemma item_row_bound {A} (a : list (list A)) (i j : nat) (v : A) :
  Np.item a i j = Some v -> i < length a.
Proof.
  unfold Np.item. destruct (a !! i) as [row|] eqn:E; [|discriminate].
  intros _. eapply lookup_lt_Some. exact E.
Qed.

Lemma shape_item {A} (a : list (list A)) (n k i j : nat) :
  Np.shape a n k -> i < n -> j < k -> exists v, Np.item a i j = Some v.
Proof.
  intros [Hn Hk] Hi Hj. unfold Np.item.
  destruct (lookup_lt_is_Some_2 a i) as [row Hrow]; [lia|].
  rewrite Hrow. apply lookup_lt_is_Some_2.
  rewrite Forall_lookup in Hk. rewrite (Hk i row Hrow). exact Hj.
Qed.

End Fwhm.

(** C1, as stated, fails: a field whose only position at or above half
    maximum is a single pixel has width zero, and a field of negative
    values has no width at all. *)
Lemma fwhm_not_strictly_positive :
  concat Fields.single_peak <> []
  /\ ~ Spec.all_zero Fields.single_peak
  /\ ResolutionFunctions.fwhm Fields.single_peak = Py.Ok 0%Z
  /\ ~ Spec.all_zero Fields.negative_pair
  /\ ResolutionFunctions.fwhm Fields.negative_pair
     = Py.Raise (Py.ValueError (Py.Text
         "zero-size array to reduction operation maximum which has no identity")).
Proof.
  split; [discriminate|]. split; [|split; [reflexivity|split; [|reflexivity]]].
  - intros H. specialize (H 1 1 1%Q eq_refl). discriminate H.
  - intros H. specialize (H 0 0 (-1)%Q eq_refl). discriminate H.
Qed.

(** C1 (amended). For every field with a non-negative maximum, [fwhm]
    returns a value that is non-negative and strictly less than the number
    of rows; the value is zero exactly when all positions at or above half
    maximum lie in one row. *)
Theorem fwhm_bounds (psf : list (list Q)) (m : Q) :
  Spec.is_max psf m -> (0 <= m)%Q ->
  exists w,
    ResolutionFunctions.fwhm psf = Py.Ok w
    /\ (0 <= w < Z.of_nat (length psf))%Z
    /\ (w = 0%Z <->
        forall i j i' j',
          Spec.at_half_max psf m i j -> Spec.at_half_max psf m i' j' -> i = i').
Proof.
  intros Hmax Hm.
  destruct (fwhm_cases psf m Hmax)
    as [(hi & lo & j_hi & j_lo & Hf & Hhi & Hlo & Hb)|[(e & Hf) _]].
  - exists (Z.of_nat hi - Z.of_nat lo)%Z. split; [exact Hf|].
    pose proof (Hb _ _ Hlo) as Hlohi.
    destruct Hhi as (v & Hv & Hle).
    pose proof (item_row_bound _ _ _ _ Hv) as Hlen.
    split; [lia|]. split.
    + intros Hw i j i' j' H H'.
      pose proof (Hb _ _ H). pose proof (Hb _ _ H'). lia.
    + intros Hrow. rewrite (Hrow hi j_hi lo j_lo); [lia| |exact Hlo].
      exists v. auto.
  - destruct (fwhm_returns psf m Hmax Hm) as [w Hw]. congruence.
Qed.

Lemma fwhm_bounds_witness :
  exists w,
    ResolutionFunctions.fwhm Fields.spot = Py.Ok w
    /\ (0 <= w < Z.of_nat (length Fields.spot))%Z
    /\ (w = 0%Z <->
        forall i j i' j',
          Spec.at_half_max Fields.spot 1 i j ->
          Spec.at_half_max Fields.spot 1 i' j' -> i = i').
Proof.
  apply (fwhm_bounds Fields.spot 1).
  - apply np_max_sound. reflexivity.
  - vm_compute. discriminate.
Defined.

(** C2, as stated, fails: on a field of zeros [fwhm] returns a number. *)
Lemma fwhm_zeros_returns_number :
  Spec.all_zero Fields.zeros
  /\ ResolutionFunctions.fwhm Fields.zeros = Py.Ok 1%Z.
Proof.
  split; [|reflexivity].
  intros [|[|i]] [|[|j]] v; try (intros [= <-]; reflexivity); try discriminate.
  all: destruct j; discriminate.
Qed.

(** C2 (amended). On a field of [n] rows and [k] columns ([n], [k] >= 1)
    whose entries are all zero, [fwhm] raises nothing: the half maximum is
    zero, every position is at or above it, and the result is the number
    [n - 1], the span of all rows. *)
Theorem fwhm_all_zero (psf : list (list Q)) (n k : nat) :
  Np.shape psf n k -> 0 < n -> 0 < k -> Spec.all_zero psf ->
  ResolutionFunctions.fwhm psf = Py.Ok (Z.of_nat n - 1)%Z.
Proof.
  intros Hshape Hn Hk Hzero.
  destruct (shape_item psf n k 0 0 Hshape Hn Hk) as [v0 Hv0].
  destruct (shape_item psf n k (n - 1) 0 Hshape) as [v1 Hv1]; [lia|exact Hk|].
  assert (Hmax : Spec.is_max psf v0).
  { split; [eauto|]. intros i j v Hv.
    rewrite (Hzero _ _ _ Hv), (Hzero _ _ _ Hv0). apply Qle_refl. }
  assert (Hall : forall i j v, Np.item psf i j = Some v ->
                               Spec.at_half_max psf v0 i j).
  { intros i j v Hv. exists v. split; [exact Hv|].
    rewrite (Hzero _ _ _ Hv), (Hzero _ _ _ Hv0). discriminate. }
  destruct (fwhm_cases psf v0 Hmax)
    as [(hi & lo & j_hi & j_lo & Hf & Hhi & Hlo & Hb)|[_ Hnone]].
  - rewrite Hf. f_equal.
    pose proof (Hb _ _ (Hall _ _ _ Hv0)).
    pose proof (Hb _ _ (Hall _ _ _ Hv1)).
    destruct Hhi as (v & Hv & _).
    pose proof (item_row_bound _ _ _ _ Hv) as Hlen.
    destruct Hshape as [Hrows _]. lia.
  - destruct (Hnone _ _ (Hall _ _ _ Hv0)).
Qed.

Lemma fwhm_all_zero_witness :
  ResolutionFunctions.fwhm Fields.zeros = Py.Ok (Z.of_nat 2 - 1)%Z.
Proof.
  apply (fwhm_all_zero Fields.zeros 2 2).
  - split; [reflexivity|]. repeat constructor.
  - lia.
  - lia.
  - intros [|[|i]] [|[|j]] v; simpl; try (intros [= <-]; reflexivity);
      try discriminate.
    all: destruct j; discriminate.
Defined.

(** Outside the intensity fields: when every value is negative no position
    reaches half of the maximum, and numpy's reduction over the empty index
    array raises. *)
Example fwhm_negative_field_raises :
  concat Fields.negative <> []
  /\ ResolutionFunctions.fwhm Fields.negative
     = Py.Raise (Py.ValueError (Py.Text
         "zero-size array to reduction operation maximum which has no identity")).
Proof. split; [discriminate | reflexivity]. Qed.

(** C4. For every non-empty intensity field (its maximum [m] is
    non-negative), [fwhm] returns the largest row index minus the smallest
    row index (first axis) over all positions whose value is greater than or
    equal to [m / 2]: a span of grid indices, not a physical length. *)
Theorem fwhm_is_half_max_span (psf : list (list Q)) (m : Q) :
  Spec.is_max psf m -> (0 <= m)%Q ->
  exists w,
    ResolutionFunctions.fwhm psf = Py.Ok w
    /\ Spec.is_span psf m w
    /\ forall w', Spec.is_span psf m w' -> w' = w.
Proof.
  intros Hmax Hm.
  destruct (fwhm_returns psf m Hmax Hm) as [w Hw].
  exists w. split; [exact Hw|]. split.
  - apply fwhm_span_iff; assumption.
  - intros w' Hw'. apply (fwhm_span_iff psf m w' Hmax) in Hw'. congruence.
Qed.

Lemma fwhm_is_half_max_span_witness :
  exists w,
    ResolutionFunctions.fwhm Fields.spot = Py.Ok w
    /\ Spec.is_span Fields.spot 1 w
    /\ forall w', Spec.is_span Fields.spot 1 w' -> w' = w.
Proof.
  apply (fwhm_is_half_max_span Fields.spot 1).
  - apply np_max_sound. reflexivity.
  - vm_compute. discriminate.
Defined.

(** * Point spread functions *)

Section Psf.
Import PsfFunctions.
Local Open Scope R_scope.

Lemma item_elementwise {A B C} (op : A -> B -> C)
    (a : list (list A)) (b : list (list B)) (i j : nat) (u : A) (v : B) :
  Np.item a i j = Some u -> Np.item b i j = Some v ->
  Np.item (Np.elementwise op a b) i j = Some (op u v).
Proof.
  unfold Np.item, Np.elementwise. intros Ha Hb. rewrite lookup_zip_with.
  destruct (a !! i) as [ra|]; [|discriminate].
  destruct (b !! i) as [rb|]; [|discriminate].
  simpl. rewrite lookup_zip_with, Ha, Hb. reflexivity.
Qed.

Lemma radius2_nonneg (x y : R) : 0 <= x ^ 2 + y ^ 2.
Proof. nra. Qed.

Lemma radius2_of_radius (x y r : R) : sqrt (x ^ 2 + y ^ 2) = r -> x ^ 2 + y ^ 2 = r ^ 2.
Proof.
  intros <-. rewrite <- (sqrt_sqrt (x ^ 2 + y ^ 2)) at 1 by apply radius2_nonneg.
  ring.
Qed.

Lemma exp_monotone (u v : R) : u <= v -> exp u <= exp v.
Proof.
  intros [Hlt| ->]; [left; apply exp_increasing; exact Hlt | right; reflexivity].
Qed.

Lemma exp_nonpos_le_1 (u : R) : u <= 0 -> exp u <= 1.
Proof. intros Hu. rewrite <- exp_0. apply exp_monotone. exact Hu. Qed.

Lemma scaled_radius_lt (w a b : R) : 0 < w -> a < b -> (- b) / w ^ 2 < (- a) / w ^ 2.
Proof.
  intros Hw Hab. unfold Rdiv. apply Rmult_lt_compat_r; [|lra].
  apply Rinv_0_lt_compat. nra.
Qed.

Lemma gaussian_at_origin (w0 : R) : gaussian_psf_at w0 0 0 = 1.
Proof.
  unfold gaussian_psf_at.
  replace ((- (0 ^ 2 + 0 ^ 2)) / w0 ^ 2) with 0 by (unfold Rdiv; ring).
  apply exp_0.
Qed.

Lemma gaussian_at_waist (w0 x y : R) :
  0 < w0 -> sqrt (x ^ 2 + y ^ 2) = w0 -> gaussian_psf_at w0 x y = 1 / exp 1.
Proof.
  intros Hw Hr. unfold gaussian_psf_at. rewrite (radius2_of_radius _ _ _ Hr).
  replace ((- w0 ^ 2) / w0 ^ 2) with (Ropp 1) by (field; lra).
  rewrite exp_Ropp. unfold Rdiv. ring.
Qed.

Lemma gaussian_strictly_decreasing (w0 x y x' y' : R) :
  0 < w0 -> sqrt (x ^ 2 + y ^ 2) < sqrt (x' ^ 2 + y' ^ 2) ->
  gaussian_psf_at w0 x' y' < gaussian_psf_at w0 x y.
Proof.
  intros Hw Hr. apply sqrt_lt_0_alt in Hr.
  unfold gaussian_psf_at. apply exp_increasing, scaled_radius_lt; assumption.
Qed.

Lemma gaussian_decreasing (w0 x y x' y' : R) :
  0 < w0 -> sqrt (x ^ 2 + y ^ 2) <= sqrt (x' ^ 2 + y' ^ 2) ->
  gaussian_psf_at w0 x' y' <= gaussian_psf_at w0 x y.
Proof.
  intros Hw Hr. apply sqrt_le_0 in Hr; try apply radius2_nonneg.
  unfold gaussian_psf_at. apply exp_monotone.
  destruct Hr as [Hlt|Heq]; [left; apply scaled_radius_lt; assumption|].
  rewrite Heq. right. reflexivity.
Qed.

Lemma powerRZ_to_nat (r : R) (m : Z) : (1 <= m)%Z -> powerRZ r m = r ^ Z.to_nat m.
Proof. destruct m as [|p|p]; [lia | reflexivity | lia]. Qed.

Lemma donut_at_origin (w : R) (m : Z) :
  (1 <= m)%Z -> laguerre_gaussian_donut_at w m 0 0 = 0.
Proof.
  intros Hm. unfold laguerre_gaussian_donut_at. cbv zeta.
  rewrite (powerRZ_to_nat _ _ Hm).
  replace ((0 ^ 2 + 0 ^ 2) / w ^ 2) with 0 by (unfold Rdiv; ring).
  rewrite pow_i; [ring | lia].
Qed.

Lemma donut_positive (w : R) (m : Z) (x y : R) :
  0 < w -> sqrt (x ^ 2 + y ^ 2) <> 0 -> 0 < laguerre_gaussian_donut_at w m x y.
Proof.
  intros Hw Hr. unfold laguerre_gaussian_donut_at. cbv zeta.
  assert (Hr2 : 0 < x ^ 2 + y ^ 2).
  { destruct (radius2_nonneg x y) as [Hlt|Heq]; [exact Hlt|].
    exfalso. apply Hr. rewrite <- Heq. apply sqrt_0. }
  apply Rmult_lt_0_compat; [|apply exp_pos].
  apply powerRZ_lt. apply Rdiv_lt_0_compat; [exact Hr2 | nra].
Qed.

Lemma effective_at_dark_centre (I_s I0_sted exc : R) :
  effective_psf_at I_s I0_sted exc 0 = exc.
Proof.
  unfold effective_psf_at.
  replace ((- I0_sted) * 0 / I_s) with 0 by (unfold Rdiv; ring).
  rewrite exp_0. ring.
Qed.

(** Depletion attenuates: the factor [exp (- I0_sted * sted / I_s)] lies in
    (0, 1]. *)
Lemma depletion_factor_bounds (I_s I0_sted sted : R) :
  0 <= sted -> 0 < I_s -> 0 <= I0_sted ->
  0 < exp ((- I0_sted) * sted / I_s) <= 1.
Proof.
  intros Hs HIs HI0. split; [apply exp_pos|]. apply exp_nonpos_le_1.
  pose proof (Rinv_0_lt_compat _ HIs) as Hinv.
  pose proof (Rmult_le_pos _ _ (Rmult_le_pos _ _ HI0 Hs) (Rlt_le _ _ Hinv)).
  unfold Rdiv. lra.
Qed.

(** [exp (- t) < 1 / t] in the form that avoids division. *)
Lemma exp_decay (t : R) : 0 < t -> t * exp (- t) < 1.
Proof.
  intros Ht. rewrite exp_Ropp.
  pose proof (exp_pos t) as Hpos. pose proof (exp_ineq1 t) as Hineq.
  apply Rmult_lt_reg_r with (r := exp t); [exact Hpos|].
  rewrite Rmult_assoc, Rinv_l; lra.
Qed.

Lemma effective_vanishes (I_s exc sted eps : R) :
  0 < sted -> 0 < I_s -> 0 < eps ->
  exists bound, forall I0_sted,
    bound < I0_sted -> Rabs (effective_psf_at I_s I0_sted exc sted) < eps.
Proof.
  intros Hs HIs Heps.
  exists ((Rabs exc / eps + 1) * I_s / sted). intros I0 HI0.
  unfold effective_psf_at. rewrite Rabs_mult, (Rabs_pos_eq (exp _)); [|left; apply exp_pos].
  set (t := I0 * sted / I_s).
  replace ((- I0) * sted / I_s) with (- t) by (unfold t, Rdiv; ring).
  pose proof (Rabs_pos exc) as Habs.
  assert (Hq : 0 <= Rabs exc / eps) by (apply Rle_mult_inv_pos; assumption).
  assert (Ht : Rabs exc / eps + 1 < t).
  { unfold t. apply Rmult_lt_reg_r with (r := I_s / sted);
      [apply Rdiv_lt_0_compat; assumption|].
    replace (I0 * sted / I_s * (I_s / sted)) with I0 by (field; lra).
    replace ((Rabs exc / eps + 1) * (I_s / sted))
      with ((Rabs exc / eps + 1) * I_s / sted) by (field; lra).
    exact HI0. }
  assert (Hexc : Rabs exc < eps * t).
  { replace (Rabs exc) with (eps * (Rabs exc / eps)) by (field; lra). nra. }
  pose proof (exp_decay t ltac:(lra)) as Hdecay.
  pose proof (exp_pos (- t)) as Hpos.
  nra.
Qed.

End Psf.

Local Open Scope R_scope.

(** C5. With [w0 > 0], the excitation PSF at a grid position with
    coordinates [(a, b)] is [exp (- (a^2 + b^2) / w0^2)]: it is 1 at the
    origin, 1/e at radius [w0], and decreases (strictly) as the radius
    [sqrt (a^2 + b^2)] grows. *)
Theorem gaussian_psf_profile
    (x y : list (list R)) (w0 : R) (i j : nat) (a b : R) :
  0 < w0 -> Np.item x i j = Some a -> Np.item y i j = Some b ->
  let psf := PsfFunctions.gaussian_psf x y w0 in
  Np.item psf i j = Some (exp ((- (a ^ 2 + b ^ 2)) / w0 ^ 2))
  /\ (a = 0 -> b = 0 -> Np.item psf i j = Some 1)
  /\ (sqrt (a ^ 2 + b ^ 2) = w0 -> Np.item psf i j = Some (1 / exp 1))
  /\ forall i' j' a' b',
       Np.item x i' j' = Some a' -> Np.item y i' j' = Some b' ->
       exists v v',
         Np.item psf i j = Some v /\ Np.item psf i' j' = Some v'
         /\ (sqrt (a ^ 2 + b ^ 2) <= sqrt (a' ^ 2 + b' ^ 2) -> v' <= v)
         /\ (sqrt (a ^ 2 + b ^ 2) < sqrt (a' ^ 2 + b' ^ 2) -> v' < v).
Proof.
  intros Hw Ha Hb psf.
  pose proof (item_elementwise (PsfFunctions.gaussian_psf_at w0) x y i j a b Ha Hb)
    as Hv.
  fold (PsfFunctions.gaussian_psf x y w0) in Hv. fold psf in Hv.
  split; [exact Hv|]. split; [|split].
  - intros -> ->. rewrite Hv, gaussian_at_origin. reflexivity.
  - intros Hr. rewrite Hv, (gaussian_at_waist w0 a b Hw Hr). reflexivity.
  - intros i' j' a' b' Ha' Hb'.
    exists (PsfFunctions.gaussian_psf_at w0 a b), (PsfFunctions.gaussian_psf_at w0 a' b').
    split; [exact Hv|]. split; [apply item_elementwise; assumption|].
    split; intros Hr.
    + apply gaussian_decreasing; assumption.
    + apply gaussian_strictly_decreasing; assumption.
Qed.

Lemma gaussian_psf_profile_witness :
  Np.item (PsfFunctions.gaussian_psf Fields.axis_x Fields.axis_y 100) 0 1 = Some 1.
Proof.
  apply (proj1 (proj2
           (gaussian_psf_profile Fields.axis_x Fields.axis_y 100 0 1 0 0
              ltac:(lra) eq_refl eq_refl))); reflexivity.
Defined.

(** C6. With [w > 0] and an integer [m >= 1], the depletion PSF at a grid
    position with coordinates [(a, b)] is [(r2 / w^2)^m * exp (- r2 / w^2)]
    for [r2 = a^2 + b^2]: it is 0 at the origin and strictly positive
    wherever the radius is not zero; a call without [m] is the call with
    [m = 1]. *)
Theorem laguerre_gaussian_donut_profile
    (x y : list (list R)) (w : R) (m : Z) (i j : nat) (a b : R) :
  0 < w -> (1 <= m)%Z -> Np.item x i j = Some a -> Np.item y i j = Some b ->
  let r2 := a ^ 2 + b ^ 2 in
  let psf := PsfFunctions.laguerre_gaussian_donut x y w (Some m) in
  Np.item psf i j = Some ((r2 / w ^ 2) ^ Z.to_nat m * exp ((- r2) / w ^ 2))
  /\ (a = 0 -> b = 0 -> Np.item psf i j = Some 0)
  /\ (sqrt r2 <> 0 -> exists v, Np.item psf i j = Some v /\ 0 < v)
  /\ PsfFunctions.laguerre_gaussian_donut x y w None
     = PsfFunctions.laguerre_gaussian_donut x y w (Some 1%Z).
Proof.
  intros Hw Hm Ha Hb r2 psf.
  pose proof (item_elementwise (PsfFunctions.laguerre_gaussian_donut_at w m)
                x y i j a b Ha Hb) as Hv.
  change (Np.item psf i j = Some (PsfFunctions.laguerre_gaussian_donut_at w m a b))
    in Hv.
  split; [|split; [|split]].
  - rewrite Hv. unfold PsfFunctions.laguerre_gaussian_donut_at. cbv zeta.
    rewrite (powerRZ_to_nat _ _ Hm). reflexivity.
  - intros -> ->. rewrite Hv, (donut_at_origin w m Hm). reflexivity.
  - intros Hr. exists (PsfFunctions.laguerre_gaussian_donut_at w m a b).
    split; [exact Hv|]. apply donut_positive; assumption.
  - reflexivity.
Qed.

Lemma laguerre_gaussian_donut_profile_witness :
  Np.item (PsfFunctions.laguerre_gaussian_donut Fields.axis_x Fields.axis_y 100 (Some 1%Z))
    0 1 = Some 0.
Proof.
  apply (proj1 (proj2
           (laguerre_gaussian_donut_profile Fields.axis_x Fields.axis_y 100 1 0 1 0 0
              ltac:(lra) ltac:(lia) eq_refl eq_refl))); reflexivity.
Defined.

(** C7. With [depl >= 0], [I_s > 0] and [I0_sted >= 0], the effective PSF at
    a grid position is [exc * exp (- I0_sted * depl / I_s)]; where the
    depletion is zero it is the excitation value itself, and where the
    depletion is positive it tends to 0 as [I0_sted] grows without bound. *)
Theorem effective_psf_formula
    (exc_psf sted_psf : list (list R)) (I_s I0_sted : R) (i j : nat) (exc depl : R) :
  Np.item exc_psf i j = Some exc -> Np.item sted_psf i j = Some depl ->
  0 <= depl -> 0 < I_s -> 0 <= I0_sted ->
  Np.item (PsfFunctions.effective_psf exc_psf sted_psf I_s I0_sted) i j
    = Some (exc * exp ((- I0_sted) * depl / I_s))
  /\ (depl = 0 ->
      Np.item (PsfFunctions.effective_psf exc_psf sted_psf I_s I0_sted) i j
        = Some exc)
  /\ (0 < depl ->
      forall eps, 0 < eps ->
      exists bound, forall I0, bound < I0 ->
        exists v,
          Np.item (PsfFunctions.effective_psf exc_psf sted_psf I_s I0) i j = Some v
          /\ Rabs v < eps).
Proof.
  intros Hexc Hdepl Hd HIs HI0.
  assert (Hv : forall I0,
             Np.item (PsfFunctions.effective_psf exc_psf sted_psf I_s I0) i j
             = Some (PsfFunctions.effective_psf_at I_s I0 exc depl))
    by (intros I0; apply item_elementwise; assumption).
  split; [apply Hv|]. split.
  - intros ->. rewrite Hv, effective_at_dark_centre. reflexivity.
  - intros Hpos eps Heps.
    destruct (effective_vanishes I_s exc depl eps Hpos HIs Heps) as [bound Hbound].
    exists bound. intros I0 Hlt. eexists. split; [apply Hv|]. apply Hbound, Hlt.
Qed.

Lemma effective_psf_formula_witness :
  Np.item (PsfFunctions.effective_psf Fields.excitation Fields.depletion 2 25) 0 0
  = Some 1.
Proof.
  apply (proj1 (proj2
           (effective_psf_formula Fields.excitation Fields.depletion 2 25 0 0 1 0
              eq_refl eq_refl ltac:(lra) ltac:(lra) ltac:(lra)))); reflexivity.
Defined.

(** C8. For [wavelength > 0] and [NA > 0], [diffraction_limit] returns
    [wavelength / (2 * NA)], a strictly positive number. *)
Theorem diffraction_limit_formula (wavelength NA : R) :
  0 < wavelength -> 0 < NA ->
  ResolutionFunctions.diffraction_limit wavelength NA
    = Py.Ok (wavelength / (2 * NA))
  /\ 0 < wavelength / (2 * NA).
Proof.
  intros Hw HNA. unfold ResolutionFunctions.diffraction_limit.
  destruct (Req_dec_T (2 * NA) 0) as [Hz|_]; [lra|].
  split; [reflexivity|]. apply Rdiv_lt_0_compat; lra.
Qed.

Lemma diffraction_limit_formula_witness :
  ResolutionFunctions.diffraction_limit 650 (13 / 10)
    = Py.Ok (650 / (2 * (13 / 10)))
  /\ 0 < 650 / (2 * (13 / 10)).
Proof.
  apply (diffraction_limit_formula 650 (13 / 10)); lra.
Defined.

(** C10. With [exc >= 0], [depl >= 0], [I_s > 0] and [I0_sted >= 0], the
    effective PSF at a grid position is non-negative and at most the
    excitation value there: depletion never amplifies the signal. *)
Theorem effective_psf_attenuates
    (exc_psf sted_psf : list (list R)) (I_s I0_sted : R) (i j : nat) (exc depl : R) :
  Np.item exc_psf i j = Some exc -> Np.item sted_psf i j = Some depl ->
  0 <= exc -> 0 <= depl -> 0 < I_s -> 0 <= I0_sted ->
  exists v,
    Np.item (PsfFunctions.effective_psf exc_psf sted_psf I_s I0_sted) i j = Some v
    /\ 0 <= v <= exc.
Proof.
  intros Hexc Hdepl He Hd HIs HI0.
  exists (PsfFunctions.effective_psf_at I_s I0_sted exc depl).
  split; [apply item_elementwise; assumption|].
  unfold PsfFunctions.effective_psf_at.
  pose proof (depletion_factor_bounds I_s I0_sted depl Hd HIs HI0) as [Hpos Hle].
  split; nra.
Qed.

Lemma effective_psf_attenuates_witness :
  exists v,
    Np.item (PsfFunctions.effective_psf Fields.excitation Fields.depletion 2 25) 0 1
      = Some v
    /\ 0 <= v <= 1 / 2.
Proof.
  apply (effective_psf_attenuates Fields.excitation Fields.depletion 2 25 0 1 (1 / 2) 1);
    try reflexivity; lra.
Defined.

Local Close Scope R_scope.

(** * More on parameter validation *)

Section GuardTable.
Import Py.

Lemma bind_unit_Ok (r : result unit) : (let! _ := r in Ok tt) = r.
Proof. destruct r as [[]|e]; reflexivity. Qed.

Lemma validate_as_table (params : gmap string num) :
  Start.validate_parameters params = Guards.run_all params Guards.table.
Proof.
  unfold Start.validate_parameters, Guards.table. simpl.
  rewrite bind_unit_Ok. reflexivity.
Qed.

Lemma passes_run (params : gmap string num) (g : string * num * num * string) :
  Guards.passes params g -> Guards.run params g = Ok tt.
Proof.
  destruct g as [[[f lo] hi] expected]. intros (v & Hv & Hlo & Hhi).
  simpl. rewrite (check_present _ _ _ _ _ _ Hv), Hlo, Hhi. reflexivity.
Qed.

Lemma run_Ok_passes (params : gmap string num) (g : string * num * num * string) u :
  Guards.run params g = Ok u -> Guards.passes params g.
Proof.
  destruct g as [[[f lo] hi] expected]. simpl. apply check_Ok_inv.
Qed.

Lemma run_all_first_failure (params : gmap string num) pre g post err :
  Forall (Guards.passes params) pre -> Guards.run params g = Raise err ->
  Guards.run_all params (pre ++ g :: post) = Raise err.
Proof.
  intros Hpre Hg. induction Hpre as [|g' pre Hg' _ IH]; simpl.
  - rewrite Hg. reflexivity.
  - rewrite (passes_run _ _ Hg'). exact IH.
Qed.

Lemma run_all_Ok (params : gmap string num) gs :
  Guards.run_all params gs = Ok tt <-> Forall (Guards.passes params) gs.
Proof.
  induction gs as [|g gs IH]; simpl.
  - split; [constructor | reflexivity].
  - split.
    + intros H. apply bind_Ok_inv in H as (u & Hg & Hrest).
      constructor; [eapply run_Ok_passes; exact Hg | apply IH, Hrest].
    + intros H. inversion H as [|? ? Hg Hrest]; subst.
      rewrite (passes_run _ _ Hg). apply IH, Hrest.
Qed.

(** The outcome of a guard depends on the value under its key only. *)
Lemma run_agree (p q : gmap string num) (g : string * num * num * string) :
  p !! g.1.1.1 = q !! g.1.1.1 -> Guards.run p g = Guards.run q g.
Proof.
  destruct g as [[[f lo] hi] expected]. simpl. intros H.
  unfold Start.check, getitem. rewrite H. reflexivity.
Qed.

Lemma run_all_agree (p q : gmap string num) gs :
  Forall (fun g => p !! g.1.1.1 = q !! g.1.1.1) gs ->
  Guards.run_all p gs = Guards.run_all q gs.
Proof.
  induction 1 as [|g gs Hg _ IH]; simpl; [reflexivity|].
  rewrite (run_agree p q g Hg), IH. reflexivity.
Qed.

End GuardTable.

(** X1. A missing key is reported as [KeyError]: when every guard before
    the one of key [f] passes and [f] is absent from the dictionary,
    [validate_parameters] raises [KeyError f], whatever the later keys
    hold. *)
Theorem validate_parameters_missing_key
    (params : gmap string Py.num) pre f lo hi expected post :
  Guards.table = (pre ++ (f, lo, hi, expected) :: post)%list ->
  Forall (Guards.passes params) pre ->
  params !! f = None ->
  Start.validate_parameters params = Py.Raise (Py.KeyError f).
Proof.
  intros Htable Hpre Hf. rewrite validate_as_table, Htable.
  apply run_all_first_failure; [exact Hpre|].
  simpl. unfold Start.check, Py.getitem. rewrite Hf. reflexivity.
Qed.

Lemma validate_parameters_missing_key_witness :
  Start.validate_parameters (delete "NA" Start.valid_params)
  = Py.Raise (Py.KeyError "NA").
Proof.
  apply (validate_parameters_missing_key (delete "NA" Start.valid_params)
           [("lambda_exc", Py.Int 400, Py.Int 700, "400–700 nm");
            ("lambda_sted", Py.Int 710, Py.Int 850, "710–850 nm")]
           "NA" (Py.Float (Py.Finite (1 # 2))) (Py.Float (Py.Finite (149 # 100)))
           "0.5–1.49"
           [("I_s", Py.Float (Py.Finite (1 # 10)), Py.Float (Py.Finite 5), "0.1–5.0");
            ("I0_sted", Py.Int 0, Py.Int 100, "0–100");
            ("grid_size", Py.Int 256, Py.Int 1000, "256–1000");
            ("extent_nm", Py.Int 500, Py.Int 2000, "500–2000")]).
  - reflexivity.
  - repeat constructor.
    + exists (Py.Int 650). vm_compute. auto.
    + exists (Py.Int 750). vm_compute. auto.
  - vm_compute. reflexivity.
Defined.

(** X2. [validate_parameters] reads the seven keys and nothing else: two
    dictionaries that agree on them get the same outcome, so any other
    entry is ignored. *)
Theorem validate_parameters_reads_seven_keys (p q : gmap string Py.num) :
  (forall k, k ∈ Guards.names -> p !! k = q !! k) ->
  Start.validate_parameters p = Start.validate_parameters q.
Proof.
  intros H. rewrite !validate_as_table. apply run_all_agree.
  unfold Guards.table. repeat constructor; simpl; apply H;
    unfold Guards.names; set_solver.
Qed.

Lemma validate_parameters_reads_seven_keys_witness :
  Start.validate_parameters (<["comment" := Py.Int 0]> Start.valid_params)
  = Start.validate_parameters Start.valid_params.
Proof.
  apply validate_parameters_reads_seven_keys.
  intros k Hk. apply lookup_insert_ne.
  intros <-. vm_compute in Hk.
  repeat (apply elem_of_cons in Hk as [Hk|Hk]; [discriminate Hk|]).
  inversion Hk.
Defined.

(** * Reading the configuration *)

Section ReadConfigProofs.
Import Config ReadConfig.
Context {config : Type}.
Variable read : outcome config.
Variable get : config -> string -> string -> outcome string.
Variable float_of : string -> outcome Py.float.
Variable int_of : string -> outcome Z.

Lemma bind_Return {A} (r : outcome A) : (try! a := r in Return a) = r.
Proof. destruct r; reflexivity. Qed.

Lemma bind_Return_inv {A B} (r : outcome A) (k : A -> outcome B) (b : B) :
  Config.bind r k = Return b -> exists a, r = Return a /\ k a = Return b.
Proof. destruct r as [a|e]; simpl; [eauto | discriminate]. Qed.

Lemma read_settings_table (cfg : config) :
  read_settings get float_of int_of cfg
  = set_options get float_of int_of cfg settings ∅.
Proof.
  unfold read_settings, settings. simpl. unfold set_option. simpl.
  repeat match goal with
         | |- Config.bind ?r _ = Config.bind ?r _ =>
             destruct r; simpl; [|reflexivity]
         end.
  rewrite bind_Return. reflexivity.
Qed.

Lemma set_float_inv (cfg : config) name (p p' : gmap string Py.num) :
  set_float get float_of cfg name p = Return p' ->
  exists s f, get cfg "settings" name = Return s /\ float_of s = Return f
              /\ p' = <[name := Py.Float f]> p.
Proof.
  unfold set_float. intros H.
  apply bind_Return_inv in H as (s & Hs & H).
  apply bind_Return_inv in H as (f & Hf & [= <-]). eauto.
Qed.

Lemma set_int_inv (cfg : config) name (p p' : gmap string Py.num) :
  set_int get int_of cfg name p = Return p' ->
  exists s z, get cfg "settings" name = Return s /\ int_of s = Return z
              /\ p' = <[name := Py.Int z]> p.
Proof.
  unfold set_int. intros H.
  apply bind_Return_inv in H as (s & Hs & H).
  apply bind_Return_inv in H as (z & Hz & [= <-]). eauto.
Qed.

Lemma set_option_readable (cfg : config) o (p : gmap string Py.num) :
  readable get float_of int_of cfg o ->
  exists v, set_option get float_of int_of cfg o p = Return (<[o.1 := v]> p).
Proof.
  destruct o as [name []]; intros (s & Hs & Hconv); simpl in *;
    destruct Hconv as [c Hc]; unfold set_option, set_float, set_int; simpl;
    rewrite Hs; simpl; rewrite Hc; simpl; eauto.
Qed.

Lemma set_option_fails (cfg : config) o (p : gmap string Py.num) e :
  fails get float_of int_of cfg o e ->
  set_option get float_of int_of cfg o p = Throw e.
Proof.
  destruct o as [name []]; intros [Hget|(s & Hs & Hc)]; simpl in *;
    unfold set_option, set_float, set_int; simpl.
  all: try (rewrite Hget; reflexivity).
  all: rewrite Hs; simpl; rewrite Hc; reflexivity.
Qed.

Lemma set_options_first_failure (cfg : config) pre o post e :
  Forall (readable get float_of int_of cfg) pre ->
  fails get float_of int_of cfg o e ->
  forall p, set_options get float_of int_of cfg (pre ++ o :: post)%list p = Throw e.
Proof.
  intros Hpre Ho. induction Hpre as [|o' pre Ho' _ IH]; intros p; simpl.
  - rewrite (set_option_fails _ _ _ _ Ho). reflexivity.
  - destruct (set_option_readable cfg o' p Ho') as [v ->]. simpl. apply IH.
Qed.

Lemma set_options_readable (cfg : config) os :
  Forall (readable get float_of int_of cfg) os ->
  forall p, exists p',
    set_options get float_of int_of cfg os p = Return p'
    /\ forall k, (k ∈ os.*1 \/ is_Some (p !! k)) -> is_Some (p' !! k).
Proof.
  induction 1 as [|o os Ho _ IH]; intros p; simpl.
  - exists p. split; [reflexivity|]. intros k [Hk|Hk]; [inversion Hk | exact Hk].
  - destruct (set_option_readable cfg o p Ho) as [v ->]. simpl.
    destruct (IH (<[o.1 := v]> p)) as (p' & -> & Hkeys).
    exists p'. split; [reflexivity|]. intros k Hk. apply Hkeys.
    destruct (decide (k = o.1)) as [->|Hne].
    + right. rewrite lookup_insert_eq. eauto.
    + destruct Hk as [Hk|Hk].
      * left. apply elem_of_cons in Hk as [Hk|Hk]; [contradiction | exact Hk].
      * right. rewrite lookup_insert_ne; [exact Hk | congruence].
Qed.

End ReadConfigProofs.

Section ValidationOutcomes.
Import Py.

(** With its key present a guard either passes or raises the [ValueError]
    of its field. *)
Lemma run_all_present (params : gmap string num) gs :
  Forall (fun g => is_Some (params !! g.1.1.1)) gs ->
  Guards.run_all params gs = Ok tt
  \/ exists f v expected,
       Guards.run_all params gs = Raise (ValueError (Invalid f v expected)).
Proof.
  induction 1 as [|[[[f lo] hi] expected] gs [v Hv] _ IH]; simpl; [auto|].
  simpl in Hv. rewrite (check_present _ _ _ _ _ _ Hv).
  destruct (le lo v && le v hi); simpl; [exact IH | eauto].
Qed.

Lemma passes_in_range (params : gmap string num) f lo hi expected a b :
  value lo = Some a -> value hi = Some b ->
  Guards.passes params (f, lo, hi, expected) ->
  exists v, params !! f = Some v /\ Spec.in_range a b v.
Proof.
  intros Hlo Hhi (v & Hv & Hle1 & Hle2). exists v. split; [exact Hv|].
  apply (chained_le_in_range lo hi v a b Hlo Hhi). rewrite Hle1, Hle2. reflexivity.
Qed.

Lemma in_range_float (a b : Q) (f : float) :
  Spec.in_range a b (Float f) ->
  exists q, f = Finite q /\ (a <= q)%Q /\ (q <= b)%Q.
Proof.
  intros (q & Hq & Hle). unfold value in Hq. simpl in Hq.
  destruct f; try discriminate. injection Hq as ->. eauto.
Qed.

Lemma in_range_int (a b z : Z) :
  Spec.in_range (inject_Z a) (inject_Z b) (Int z) -> (a <= z <= b)%Z.
Proof.
  intros (q & [= <-] & Hlo & Hhi). rewrite <- !Zle_Qle in *. lia.
Qed.

End ValidationOutcomes.

(** X3. Whatever the configuration holds, a dictionary returned by
    [read_config_file] has passed [validate_parameters]: it holds exactly
    the seven keys, the five optical parameters as finite floats and the
    two grid parameters as integers, each within its closed range, and
    nothing was printed. *)
Theorem read_config_file_returns_valid {config : Type}
    (read : Config.outcome config)
    (get : config -> string -> string -> Config.outcome string)
    (float_of : string -> Config.outcome Py.float)
    (int_of : string -> Config.outcome Z)
    (params : gmap string Py.num) :
  snd (ReadConfig.read_config_file read get float_of int_of)
    = Config.Return (Some params) ->
  fst (ReadConfig.read_config_file read get float_of int_of) = []
  /\ Start.validate_parameters params = Py.Ok tt
  /\ exists (q_exc q_sted q_NA q_Is q_I0 : Q) (z_grid z_ext : Z),
       params =
         <["extent_nm" := Py.Int z_ext]>
           (<["grid_size" := Py.Int z_grid]>
              (<["I0_sted" := Py.Float (Py.Finite q_I0)]>
                 (<["I_s" := Py.Float (Py.Finite q_Is)]>
                    (<["NA" := Py.Float (Py.Finite q_NA)]>
                       (<["lambda_sted" := Py.Float (Py.Finite q_sted)]>
                          (<["lambda_exc" := Py.Float (Py.Finite q_exc)]> ∅))))))
       /\ (400 <= q_exc /\ q_exc <= 700)%Q
       /\ (710 <= q_sted /\ q_sted <= 850)%Q
       /\ ((1 # 2) <= q_NA /\ q_NA <= (149 # 100))%Q
       /\ ((1 # 10) <= q_Is /\ q_Is <= 5)%Q
       /\ (0 <= q_I0 /\ q_I0 <= 100)%Q
       /\ (256 <= z_grid <= 1000)%Z
       /\ (500 <= z_ext <= 2000)%Z.
Proof.
  unfold ReadConfig.read_config_file.
  destruct read as [cfg|e]; [|discriminate].
  destruct (ReadConfig.read_settings get float_of int_of cfg) as [p|e] eqn:E;
    [|destruct (Config.caught e); discriminate].
  destruct (Start.validate_parameters p) as [[]|e] eqn:V; [|discriminate].
  simpl. intros [= <-]. split; [reflexivity|]. split; [exact V|].
  unfold ReadConfig.read_settings in E.
  apply bind_Return_inv in E as (p1 & E1 & E).
  apply bind_Return_inv in E as (p2 & E2 & E).
  apply bind_Return_inv in E as (p3 & E3 & E).
  apply bind_Return_inv in E as (p4 & E4 & E).
  apply bind_Return_inv in E as (p5 & E5 & E).
  apply bind_Return_inv in E as (p6 & E6 & E7).
  apply set_float_inv in E1 as (s1 & f1 & _ & _ & ->).
  apply set_float_inv in E2 as (s2 & f2 & _ & _ & ->).
  apply set_float_inv in E3 as (s3 & f3 & _ & _ & ->).
  apply set_float_inv in E4 as (s4 & f4 & _ & _ & ->).
  apply set_float_inv in E5 as (s5 & f5 & _ & _ & ->).
  apply set_int_inv in E6 as (s6 & z6 & _ & _ & ->).
  apply set_int_inv in E7 as (s7 & z7 & _ & _ & ->).
  rewrite validate_as_table in V. apply run_all_Ok in V.
  unfold Guards.table in V.
  repeat match goal with
         | H : Forall _ (_ :: _) |- _ => apply Forall_cons in H as [? H]
         end.
  repeat match goal with
         | H : Guards.passes _ _ |- _ =>
             eapply passes_in_range in H as (? & Hlook & ?);
             [|reflexivity|reflexivity];
             rewrite ?lookup_insert_ne in Hlook by done;
             rewrite lookup_insert_eq in Hlook;
             injection Hlook as <-
         end.
  repeat match goal with
         | H : Spec.in_range _ _ (Py.Float _) |- _ =>
             apply in_range_float in H as (? & -> & ? & ?)
         | H : Spec.in_range _ _ (Py.Int _) |- _ => apply in_range_int in H
         end.
  do 7 eexists. split; [reflexivity|].
  repeat split; try assumption; lia.
Qed.

Lemma read_config_file_returns_valid_witness :
  fst (ReadConfig.read_config_file (Config.Return MemoryConfig.complete)
         MemoryConfig.get MemoryConfig.float_of MemoryConfig.int_of) = []
  /\ Start.validate_parameters MemoryConfig.expected = Py.Ok tt.
Proof.
  destruct (read_config_file_returns_valid (Config.Return MemoryConfig.complete)
              MemoryConfig.get MemoryConfig.float_of MemoryConfig.int_of
              MemoryConfig.expected) as (H1 & H2 & _).
  - match goal with
    | |- ?G => exact (eq_refl (Config.Return (Some MemoryConfig.expected)) <: G)
    end.
  - split; assumption.
Defined.

(** X4. The first option that cannot be fetched or converted decides the
    result of [read_config_file]: on [NoOptionError] or [ValueError] it
    prints one line and returns [None] without validating anything; any
    other exception (such as [NoSectionError]) is not caught and leaves the
    function. *)
Theorem read_config_file_first_failure {config : Type} (cfg : config)
    (get : config -> string -> string -> Config.outcome string)
    (float_of : string -> Config.outcome Py.float)
    (int_of : string -> Config.outcome Z)
    pre o post e :
  Config.settings = (pre ++ o :: post)%list ->
  Forall (ReadConfig.readable get float_of int_of cfg) pre ->
  ReadConfig.fails get float_of int_of cfg o e ->
  ReadConfig.read_config_file (Config.Return cfg) get float_of int_of
  = if Config.caught e
    then ([Config.ErrorReading e], Config.Return None)
    else ([], Config.Throw e).
Proof.
  intros Hsplit Hpre Ho. unfold ReadConfig.read_config_file.
  rewrite read_settings_table, Hsplit.
  rewrite (set_options_first_failure get float_of int_of cfg pre o post e Hpre Ho).
  reflexivity.
Qed.

Lemma read_config_file_first_failure_witness :
  ReadConfig.read_config_file (Config.Return MemoryConfig.without_NA)
    MemoryConfig.get MemoryConfig.float_of MemoryConfig.int_of
  = ([Config.ErrorReading (Config.NoOptionError "NA" "settings")],
     Config.Return None).
Proof.
  apply (read_config_file_first_failure MemoryConfig.without_NA
           MemoryConfig.get MemoryConfig.float_of MemoryConfig.int_of
           [("lambda_exc", Config.AsFloat); ("lambda_sted", Config.AsFloat)]
           ("NA", Config.AsFloat)
           [("I_s", Config.AsFloat); ("I0_sted", Config.AsFloat);
            ("grid_size", Config.AsInt); ("extent_nm", Config.AsInt)]
           (Config.NoOptionError "NA" "settings")).
  - reflexivity.
  - repeat constructor.
    + exists "650". split; [vm_compute; reflexivity|].
      exists (Py.Finite 650). reflexivity.
    + exists "750". split; [vm_compute; reflexivity|].
      exists (Py.Finite 750). reflexivity.
  - left. vm_compute. reflexivity.
Defined.

(** A configuration file that is absent or has no section [settings] makes
    [config.get] raise [NoSectionError], which the function does not catch. *)
Example read_config_file_no_section :
  ReadConfig.read_config_file (Config.Return ∅)
    MemoryConfig.get MemoryConfig.float_of MemoryConfig.int_of
  = ([], Config.Throw (Config.NoSectionError "settings")).
Proof. reflexivity. Qed.

(** X5. When all seven options can be fetched and converted,
    [read_config_file] prints nothing and never returns [None]: it returns
    the dictionary, or an out-of-range value leaves the function as the
    [ValueError] of [validate_parameters]. *)
Theorem read_config_file_range_error_raises {config : Type} (cfg : config)
    (get : config -> string -> string -> Config.outcome string)
    (float_of : string -> Config.outcome Py.float)
    (int_of : string -> Config.outcome Z) :
  Forall (ReadConfig.readable get float_of int_of cfg) Config.settings ->
  fst (ReadConfig.read_config_file (Config.Return cfg) get float_of int_of) = []
  /\ ((exists params,
         snd (ReadConfig.read_config_file (Config.Return cfg) get float_of int_of)
         = Config.Return (Some params))
      \/ (exists f v expected,
            snd (ReadConfig.read_config_file (Config.Return cfg) get float_of int_of)
            = Config.Throw (Config.Builtin (Py.ValueError (Py.Invalid f v expected))))).
Proof.
  intros Hall. unfold ReadConfig.read_config_file. rewrite read_settings_table.
  destruct (set_options_readable get float_of int_of cfg _ Hall ∅)
    as (p & -> & Hkeys).
  assert (Hpresent : Forall (fun g => is_Some (p !! g.1.1.1)) Guards.table).
  { unfold Guards.table. repeat constructor; simpl; apply Hkeys; left;
      unfold Config.settings; simpl; set_solver. }
  rewrite validate_as_table.
  destruct (run_all_present p _ Hpresent) as [->|(f & v & expected & ->)]; simpl.
  - split; [reflexivity|]. left. eauto.
  - split; [reflexivity|]. right. eauto.
Qed.

Lemma read_config_file_range_error_raises_witness :
  (exists params,
     snd (ReadConfig.read_config_file (Config.Return MemoryConfig.complete)
            MemoryConfig.get MemoryConfig.float_of MemoryConfig.int_of)
     = Config.Return (Some params))
  \/ (exists f v expected,
        snd (ReadConfig.read_config_file (Config.Return MemoryConfig.complete)
               MemoryConfig.get MemoryConfig.float_of MemoryConfig.int_of)
        = Config.Throw (Config.Builtin (Py.ValueError (Py.Invalid f v expected)))).
Proof.
  apply (read_config_file_range_error_raises MemoryConfig.complete
           MemoryConfig.get MemoryConfig.float_of MemoryConfig.int_of).
  unfold Config.settings. repeat constructor.
  - exists "650". split; [vm_compute; reflexivity|]. exists (Py.Finite 650). reflexivity.
  - exists "750". split; [vm_compute; reflexivity|]. exists (Py.Finite 750). reflexivity.
  - exists "1.3". split; [vm_compute; reflexivity|]. exists (Py.Finite (13 # 10)). reflexivity.
  - exists "2". split; [vm_compute; reflexivity|]. exists (Py.Finite 2). reflexivity.
  - exists "25". split; [vm_compute; reflexivity|]. exists (Py.Finite 25). reflexivity.
  - exists "500". split; [vm_compute; reflexivity|]. exists 500%Z. reflexivity.
  - exists "1000". split; [vm_compute; reflexivity|]. exists 1000%Z. reflexivity.
Defined.

(** * More on the full width at half maximum *)

Section FwhmMore.
Import Py Spec ResolutionFunctions.

Lemma half_le_self (m : Q) : (m / 2 <= m)%Q <-> (0 <= m)%Q.
Proof. change (m / 2)%Q with (m * (1 # 2))%Q. split; intros H; Lqa.lra. Qed.

(** [fwhm] in terms of the rows that [np.where] reports. *)
Lemma fwhm_unfold (psf : list (list Q)) (m : Q) :
  Np.max (concat psf) = Ok m ->
  fwhm psf =
    let rows := fst (Np.where_ (map (map (Qle_bool (m / 2))) psf)) in
    let! hi := Np.max_index rows in
    let! lo := Np.min_index rows in
    Ok (Z.of_nat hi - Z.of_nat lo)%Z.
Proof. intros Hm. unfold fwhm. rewrite Hm. reflexivity. Qed.

Lemma fwhm_raise_or_return (psf : list (list Q)) :
  (exists w, fwhm psf = Ok w)
  \/ fwhm psf = Raise (ValueError (Text
       "zero-size array to reduction operation maximum which has no identity")).
Proof.
  destruct (concat psf) as [|x l] eqn:E.
  - right. unfold fwhm. rewrite E. reflexivity.
  - destruct (np_max_is_max psf) as (m & Hm & _); [congruence|].
    rewrite (fwhm_unfold psf m Hm). cbv zeta.
    destruct (fst (Np.where_ (map (map (Qle_bool (m / 2))) psf))) as [|r rest].
    + right. reflexivity.
    + left. destruct (index_extrema (r :: rest)) as (hi & lo & -> & -> & _);
        [discriminate|]. simpl. eauto.
Qed.

End FwhmMore.

(** X6. [fwhm] has one way to fail: it raises numpy's [ValueError] for a
    maximum over a zero-size array, and it does so exactly when the field
    has no entry or its maximum is negative; in every other case it
    returns a number. *)
Theorem fwhm_error_behaviour (psf : list (list Q)) :
  let zero_size :=
    Py.Raise (Py.ValueError (Py.Text
      "zero-size array to reduction operation maximum which has no identity")) in
  ((exists w, ResolutionFunctions.fwhm psf = Py.Ok w)
   \/ ResolutionFunctions.fwhm psf = zero_size)
  /\ (ResolutionFunctions.fwhm psf = zero_size
      <-> concat psf = [] \/ exists m, Spec.is_max psf m /\ (m < 0)%Q).
Proof.
  intros zero_size. split; [apply fwhm_raise_or_return|].
  destruct (concat psf) as [|x l] eqn:E.
  - split; [auto|]. intros _. unfold ResolutionFunctions.fwhm. rewrite E. reflexivity.
  - destruct (np_max_is_max psf) as (m & Hm & Hmax); [congruence|].
    destruct (Qlt_le_dec m 0) as [Hneg|Hpos].
    + split; [intros _; right; eauto|]. intros _.
      destruct (fwhm_raise_or_return psf) as [[w Hw]|Hr]; [|exact Hr].
      apply (fwhm_span_iff psf m w Hmax) in Hw
        as (i & j & _ & _ & (v & Hv & Hle) & _).
      destruct Hmax as [_ Hub]. specialize (Hub _ _ _ Hv).
      assert (H : (m / 2 <= m)%Q) by (eapply Qle_trans; eassumption).
      apply half_le_self in H. Lqa.lra.
    + destruct (fwhm_returns psf m Hmax Hpos) as [w Hw]. split.
      * rewrite Hw. discriminate.
      * intros [Hnil|(m' & Hmax' & Hneg)]; [discriminate|].
        pose proof (is_max_unique _ _ _ Hmax Hmax'). Lqa.lra.
Qed.

Section FwhmPadding.
Import Py Spec ResolutionFunctions.

(** A field whose half-maximum positions are those of [psf], moved down by
    [d] rows, has the same span. *)
Lemma is_span_shift (psf psf' : list (list Q)) (m : Q) (d : nat) (w : Z) :
  (forall i j, at_half_max psf' m i j
               <-> exists i', i = d + i' /\ at_half_max psf m i' j) ->
  is_span psf m w -> is_span psf' m w.
Proof.
  intros Hshift (i1 & j1 & i2 & j2 & H1 & H2 & Hb & ->).
  exists (d + i1), j1, (d + i2), j2. repeat split.
  - apply Hshift. eauto.
  - apply Hshift. eauto.
  - apply Hshift in H as (i' & -> & H). specialize (Hb _ _ H). lia.
  - apply Hshift in H as (i' & -> & H). specialize (Hb _ _ H). lia.
  - lia.
Qed.

Lemma dark_below_max (pad : list Q) (m : Q) (j : nat) (v : Q) :
  (0 <= m)%Q -> Forall (fun u => (u < m / 2)%Q) pad -> pad !! j = Some v ->
  (v <= m)%Q /\ ~ (m / 2 <= v)%Q.
Proof.
  intros Hm Hpad Hv. rewrite Forall_lookup in Hpad. specialize (Hpad _ _ Hv).
  apply half_le_self in Hm. split; [|apply Qlt_not_le; exact Hpad].
  apply Qlt_le_weak. eapply Qlt_le_trans; eassumption.
Qed.

Lemma item_app_last {A} (a : list (list A)) (row : list A) (i j : nat) :
  Np.item (a ++ [row]) i j
  = if decide (i < length a) then Np.item a i j
    else if decide (i = length a) then row !! j else None.
Proof.
  unfold Np.item. destruct (decide (i < length a)) as [Hlt|Hge].
  - rewrite lookup_app_l by exact Hlt. reflexivity.
  - rewrite lookup_app_r by lia. destruct (decide (i = length a)) as [->|Hne].
    + rewrite Nat.sub_diag. reflexivity.
    + destruct (i - length a) as [|k] eqn:E; [lia|]. reflexivity.
Qed.

End FwhmPadding.

(** X8. Only the rows that reach half of the maximum count: adding a row
    whose entries are all below half of the (non-negative) maximum, above the
    field or below it, leaves the result of [fwhm] unchanged. *)
Theorem fwhm_dark_row (psf : list (list Q)) (pad : list Q) (m : Q) :
  Spec.is_max psf m -> (0 <= m)%Q ->
  Forall (fun v => (v < m / 2)%Q) pad ->
  ResolutionFunctions.fwhm (pad :: psf) = ResolutionFunctions.fwhm psf
  /\ ResolutionFunctions.fwhm (psf ++ [pad]) = ResolutionFunctions.fwhm psf.
Proof.
  intros Hmax Hm Hpad.
  destruct (fwhm_returns psf m Hmax Hm) as [w Hw]. rewrite Hw.
  pose proof (proj1 (fwhm_span_iff psf m w Hmax) Hw) as Hspan.
  destruct Hmax as [(i0 & j0 & Hi0) Hub].
  split.
  - assert (Hmax' : Spec.is_max (pad :: psf) m).
    { split; [exists (S i0), j0; exact Hi0|].
      intros [|i] j v Hv; [|eapply Hub; exact Hv].
      apply (dark_below_max pad m j v Hm Hpad Hv). }
    apply (fwhm_span_iff _ m w Hmax').
    apply (is_span_shift psf (pad :: psf) m 1 w); [|exact Hspan].
    intros i j. split.
    + intros (v & Hv & Hle). destruct i as [|i].
      * destruct (dark_below_max pad m j v Hm Hpad Hv) as [_ Hn]. contradiction.
      * exists i. split; [reflexivity|]. exists v. auto.
    + intros (i' & -> & v & Hv & Hle). exists v. auto.
  - assert (Hitem : forall i j v, Np.item psf i j = Some v ->
                                  Np.item (psf ++ [pad]) i j = Some v).
    { intros i j v Hv. rewrite item_app_last.
      pose proof (item_row_bound _ _ _ _ Hv).
      destruct (decide (i < length psf)); [exact Hv | lia]. }
    assert (Hback : forall i j v, Np.item (psf ++ [pad]) i j = Some v ->
                      Np.item psf i j = Some v \/ pad !! j = Some v).
    { intros i j v. rewrite item_app_last.
      destruct (decide (i < length psf)); [auto|].
      destruct (decide (i = length psf)); [auto | discriminate]. }
    assert (Hmax' : Spec.is_max (psf ++ [pad]) m).
    { split; [exists i0, j0; apply Hitem, Hi0|].
      intros i j v Hv. destruct (Hback _ _ _ Hv) as [H|H]; [eapply Hub; exact H|].
      apply (dark_below_max pad m j v Hm Hpad H). }
    apply (fwhm_span_iff _ m w Hmax').
    apply (is_span_shift psf (psf ++ [pad]) m 0 w); [|exact Hspan].
    intros i j. split.
    + intros (v & Hv & Hle). exists i. split; [reflexivity|].
      destruct (Hback _ _ _ Hv) as [H|H]; [exists v; auto|].
      destruct (dark_below_max pad m j v Hm Hpad H) as [_ Hn]. contradiction.
    + intros (i' & -> & v & Hv & Hle). exists v. split; [apply Hitem, Hv | exact Hle].
Qed.

Lemma fwhm_dark_row_witness :
  ResolutionFunctions.fwhm ([0; 0; 0]%Q :: Fields.spot)
    = ResolutionFunctions.fwhm Fields.spot
  /\ ResolutionFunctions.fwhm (Fields.spot ++ [[0; 0; 0]%Q])
     = ResolutionFunctions.fwhm Fields.spot.
Proof.
  apply (fwhm_dark_row Fields.spot [0; 0; 0]%Q 1).
  - apply np_max_sound. reflexivity.
  - vm_compute. discriminate.
  - repeat constructor.
Defined.

(** * More on the point spread functions *)

Section PsfMore.
Import PsfFunctions.
Local Open Scope R_scope.

Lemma shape_elementwise {A B C} (op : A -> B -> C)
    (a : list (list A)) (b : list (list B)) (n m : nat) :
  Np.shape a n m -> Np.shape b n m -> Np.shape (Np.elementwise op a b) n m.
Proof.
  intros [Hna Hma] [Hnb Hmb]. unfold Np.elementwise. split.
  - rewrite length_zip_with_l_eq; congruence.
  - apply Forall_lookup. intros i row Hrow.
    apply lookup_zip_with_Some in Hrow as (ra & rb & -> & Hra & Hrb).
    pose proof (proj1 (Forall_lookup _ _) Hma _ _ Hra) as Hla.
    pose proof (proj1 (Forall_lookup _ _) Hmb _ _ Hrb) as Hlb.
    simpl in Hla, Hlb. rewrite length_zip_with_l_eq; congruence.
Qed.

Lemma zip_with_left_id {A B} (op : A -> B -> A) (l : list A) (k : list B) :
  (forall u v, op u v = u) -> length l = length k -> zip_with op l k = l.
Proof.
  intros Hop. revert k. induction l as [|u l IH]; intros [|v k] Hlen;
    simpl in *; try discriminate; [reflexivity|].
  rewrite Hop, IH; [reflexivity | lia].
Qed.

Lemma elementwise_left_id {A B} (op : A -> B -> A)
    (a : list (list A)) (b : list (list B)) (n m : nat) :
  (forall u v, op u v = u) ->
  Np.shape a n m -> Np.shape b n m -> Np.elementwise op a b = a.
Proof.
  intros Hop [Hna Hma] [Hnb Hmb]. unfold Np.elementwise.
  assert (Hlen : length a = length b) by congruence. clear Hna Hnb.
  revert b Hlen Hmb. induction a as [|ra a IH]; intros [|rb b] Hlen Hmb;
    simpl in *; try discriminate; [reflexivity|].
  inversion Hma as [|? ? Hra Hma']; subst. inversion Hmb as [|? ? Hrb Hmb']; subst.
  rewrite (zip_with_left_id op ra rb Hop) by congruence.
  rewrite (IH Hma' b); [reflexivity | lia | exact Hmb'].
Qed.

Lemma exp_pow_nat (x : R) (n : nat) : exp x ^ n = exp (INR n * x).
Proof.
  induction n as [|n IH].
  - simpl. rewrite Rmult_0_l, exp_0. reflexivity.
  - rewrite S_INR. simpl. rewrite IH, <- exp_plus. f_equal. ring.
Qed.

Lemma exp_opp_mult (x : R) : exp x * exp (- x) = 1.
Proof. rewrite <- exp_plus, Rplus_opp_r. apply exp_0. Qed.

(** [t * exp (- t)] is largest at [t = 1]. *)
Lemma ring_profile_bound (t : R) : t * exp (- t) <= exp (- 1).
Proof.
  pose proof (exp_ineq1_le (t - 1)) as H.
  replace (t - 1) with (t + - 1) in H by ring. rewrite exp_plus in H.
  pose proof (exp_opp_mult t) as Hinv.
  pose proof (exp_pos t). pose proof (exp_pos (- t)). pose proof (exp_pos (- 1)).
  assert (Ht : t <= exp t * exp (- 1)) by lra.
  apply Rmult_le_compat_r with (r := exp (- t)) in Ht; [|lra].
  replace (exp t * exp (- 1) * exp (- t)) with (exp (- 1) * (exp t * exp (- t)))
    in Ht by ring.
  rewrite Hinv in Ht. lra.
Qed.

Lemma donut_at_power (w : R) (m : Z) (x y : R) :
  0 < w -> (1 <= m)%Z ->
  let n := Z.to_nat m in
  let t := (x ^ 2 + y ^ 2) / w ^ 2 / INR n in
  0 <= t
  /\ laguerre_gaussian_donut_at w m x y = INR n ^ n * (t * exp (- t)) ^ n.
Proof.
  intros Hw Hm n t.
  assert (Hn : 0 < INR n) by (apply lt_0_INR; unfold n; lia).
  assert (Hu : 0 <= (x ^ 2 + y ^ 2) / w ^ 2).
  { apply Rle_mult_inv_pos; [apply radius2_nonneg | nra]. }
  split; [apply Rle_mult_inv_pos; assumption|].
  unfold laguerre_gaussian_donut_at. cbv zeta.
  rewrite (powerRZ_to_nat _ _ Hm). fold n.
  rewrite Rpow_mult_distr, exp_pow_nat, <- Rmult_assoc, <- Rpow_mult_distr.
  f_equal; [f_equal|f_equal]; unfold t; field; split; lra.
Qed.

Lemma gaussian_range (w0 x y : R) :
  0 < w0 -> 0 <= gaussian_psf_at w0 x y <= 1.
Proof.
  intros Hw. unfold gaussian_psf_at.
  pose proof (radius2_nonneg x y) as Hr.
  assert (Hinv : 0 < / w0 ^ 2) by (apply Rinv_0_lt_compat; nra).
  assert (Harg : (- (x ^ 2 + y ^ 2)) / w0 ^ 2 <= 0) by (unfold Rdiv; nra).
  split; [left; apply exp_pos | apply exp_nonpos_le_1, Harg].
Qed.

Lemma effective_decreasing (I_s I0 I0' exc sted : R) :
  0 <= exc -> 0 <= sted -> 0 < I_s -> I0 <= I0' ->
  effective_psf_at I_s I0' exc sted <= effective_psf_at I_s I0 exc sted.
Proof.
  intros He Hs HIs Hle. unfold effective_psf_at.
  apply Rmult_le_compat_l; [exact He|]. apply exp_monotone.
  assert (Hinv : 0 < / I_s) by (apply Rinv_0_lt_compat; exact HIs).
  unfold Rdiv. apply Rmult_le_compat_r; [lra | nra].
Qed.

Lemma donut_default_bounds (w x y : R) :
  0 < w -> 0 <= laguerre_gaussian_donut_at w 1 x y <= exp (- 1).
Proof.
  intros Hw. unfold laguerre_gaussian_donut_at. cbv zeta.
  set (u := (x ^ 2 + y ^ 2) / w ^ 2).
  replace ((- (x ^ 2 + y ^ 2)) / w ^ 2) with (- u) by (unfold u, Rdiv; ring).
  assert (Hu : 0 <= u).
  { apply Rle_mult_inv_pos; [apply radius2_nonneg | nra]. }
  simpl. rewrite Rmult_1_r. pose proof (exp_pos (- u)).
  split; [nra | apply ring_profile_bound].
Qed.

(** Two wavelengths through one positive aperture. *)
Lemma diffraction_limit_scalar (wavelength wavelength' NA : R) :
  0 < wavelength -> wavelength < wavelength' -> 0 < NA ->
  exists w w',
    ResolutionFunctions.diffraction_limit wavelength NA = Py.Ok w
    /\ ResolutionFunctions.diffraction_limit wavelength' NA = Py.Ok w'
    /\ 0 < w < w'.
Proof.
  intros Hw Hlt HNA. unfold ResolutionFunctions.diffraction_limit.
  destruct (Req_dec_T (2 * NA) 0) as [Hz|_]; [lra|].
  exists (wavelength / (2 * NA)), (wavelength' / (2 * NA)).
  split; [reflexivity|]. split; [reflexivity|].
  assert (H1 : 0 < / (2 * NA)) by (apply Rinv_0_lt_compat; lra).
  unfold Rdiv. split; nra.
Qed.

End PsfMore.

Local Open Scope R_scope.

(** X9. For positive arguments [diffraction_limit] always returns a
    positive value, and it is monotone: a longer wavelength or a smaller
    numerical aperture never gives a smaller value. *)
Theorem diffraction_limit_order (wavelength wavelength' NA NA' : R) :
  0 < wavelength <= wavelength' -> 0 < NA' <= NA ->
  exists w w',
    ResolutionFunctions.diffraction_limit wavelength NA = Py.Ok w
    /\ ResolutionFunctions.diffraction_limit wavelength' NA' = Py.Ok w'
    /\ 0 < w <= w'.
Proof.
  intros [Hw Hww] [HNA HNN].
  unfold ResolutionFunctions.diffraction_limit.
  destruct (Req_dec_T (2 * NA) 0) as [Hz|_]; [lra|].
  destruct (Req_dec_T (2 * NA') 0) as [Hz|_]; [lra|].
  exists (wavelength / (2 * NA)), (wavelength' / (2 * NA')).
  split; [reflexivity|]. split; [reflexivity|].
  assert (H1 : 0 < / (2 * NA)) by (apply Rinv_0_lt_compat; lra).
  assert (H2 : / (2 * NA) <= / (2 * NA')) by (apply Rinv_le_contravar; lra).
  unfold Rdiv. split; nra.
Qed.

Lemma diffraction_limit_order_witness :
  exists w w',
    ResolutionFunctions.diffraction_limit 650 (13 / 10) = Py.Ok w
    /\ ResolutionFunctions.diffraction_limit 750 (13 / 10) = Py.Ok w'
    /\ 0 < w <= w'.
Proof. apply (diffraction_limit_order 650 750 (13 / 10) (13 / 10)); lra. Defined.

(** X10. For every parameter set that [validate_parameters] accepts, the
    two beam waists main.py computes, [diffraction_limit(lambda_exc, NA)]
    and [diffraction_limit(lambda_sted, NA)], are returned without a
    division by zero, are positive, and the STED waist is the larger. *)
Theorem validated_beam_waists (params : gmap string Py.num) :
  Start.validate_parameters params = Py.Ok tt ->
  exists v_exc v_sted v_NA q_exc q_sted q_NA w_exc w_sted,
    params !! "lambda_exc" = Some v_exc /\ Py.value v_exc = Some q_exc
    /\ params !! "lambda_sted" = Some v_sted /\ Py.value v_sted = Some q_sted
    /\ params !! "NA" = Some v_NA /\ Py.value v_NA = Some q_NA
    /\ ResolutionFunctions.diffraction_limit (Q2R q_exc) (Q2R q_NA) = Py.Ok w_exc
    /\ ResolutionFunctions.diffraction_limit (Q2R q_sted) (Q2R q_NA) = Py.Ok w_sted
    /\ 0 < w_exc < w_sted.
Proof.
  intros V. rewrite validate_as_table in V. apply run_all_Ok in V.
  unfold Guards.table in V.
  apply Forall_cons in V as [G1 V]. apply Forall_cons in V as [G2 V].
  apply Forall_cons in V as [G3 _].
  eapply passes_in_range in G1 as (v1 & L1 & q1 & V1 & Hlo1 & Hhi1);
    [|reflexivity|reflexivity].
  eapply passes_in_range in G2 as (v2 & L2 & q2 & V2 & Hlo2 & Hhi2);
    [|reflexivity|reflexivity].
  eapply passes_in_range in G3 as (v3 & L3 & q3 & V3 & Hlo3 & Hhi3);
    [|reflexivity|reflexivity].
  apply Qreals.Qle_Rle in Hlo1, Hhi1, Hlo2, Hlo3.
  assert (E400 : Q2R (inject_Z 400) = 400) by (unfold Q2R; simpl; lra).
  assert (E700 : Q2R (inject_Z 700) = 700) by (unfold Q2R; simpl; lra).
  assert (E710 : Q2R (inject_Z 710) = 710) by (unfold Q2R; simpl; lra).
  assert (Ehalf : Q2R (1 # 2) = 1 / 2) by (unfold Q2R; simpl; lra).
  rewrite ?E400, ?E700, ?E710, ?Ehalf in *.
  destruct (diffraction_limit_scalar (Q2R q1) (Q2R q2) (Q2R q3))
    as (w & w' & Hw & Hw' & Hlt); [lra | lra | lra|].
  exists v1, v2, v3, q1, q2, q3, w, w'. repeat split; assumption || apply Hlt.
Qed.

Lemma validated_beam_waists_witness :
  exists v_exc v_sted v_NA q_exc q_sted q_NA w_exc w_sted,
    Start.valid_params !! "lambda_exc" = Some v_exc /\ Py.value v_exc = Some q_exc
    /\ Start.valid_params !! "lambda_sted" = Some v_sted
    /\ Py.value v_sted = Some q_sted
    /\ Start.valid_params !! "NA" = Some v_NA /\ Py.value v_NA = Some q_NA
    /\ ResolutionFunctions.diffraction_limit (Q2R q_exc) (Q2R q_NA) = Py.Ok w_exc
    /\ ResolutionFunctions.diffraction_limit (Q2R q_sted) (Q2R q_NA) = Py.Ok w_sted
    /\ 0 < w_exc < w_sted.
Proof.
  apply (validated_beam_waists Start.valid_params). vm_compute. reflexivity.
Defined.

(** X11. On coordinate arrays of one shape each of the three PSF functions
    returns an array of that shape. *)
Theorem psf_shapes (a b : list (list R)) (n m : nat)
    (w I_s I0_sted : R) (mode : option Z) :
  Np.shape a n m -> Np.shape b n m ->
  Np.shape (PsfFunctions.gaussian_psf a b w) n m
  /\ Np.shape (PsfFunctions.laguerre_gaussian_donut a b w mode) n m
  /\ Np.shape (PsfFunctions.effective_psf a b I_s I0_sted) n m.
Proof.
  intros Ha Hb. split; [|split]; apply shape_elementwise; assumption.
Qed.

Lemma psf_shapes_witness :
  Np.shape (PsfFunctions.gaussian_psf Fields.axis_x Fields.axis_y 100) 1 3
  /\ Np.shape (PsfFunctions.laguerre_gaussian_donut Fields.axis_x Fields.axis_y 100 None) 1 3
  /\ Np.shape (PsfFunctions.effective_psf Fields.axis_x Fields.axis_y 2 25) 1 3.
Proof.
  apply (psf_shapes Fields.axis_x Fields.axis_y 1 3 100 2 25 None);
    (split; [reflexivity | repeat constructor]).
Defined.

(** X12. With [w0 > 0] every value of the excitation PSF lies between 0
    and 1. *)
Theorem gaussian_psf_range
    (x y : list (list R)) (w0 : R) (i j : nat) (a b : R) :
  0 < w0 -> Np.item x i j = Some a -> Np.item y i j = Some b ->
  exists v,
    Np.item (PsfFunctions.gaussian_psf x y w0) i j = Some v
    /\ 0 <= v <= 1.
Proof.
  intros Hw Ha Hb. exists (PsfFunctions.gaussian_psf_at w0 a b).
  split; [apply item_elementwise; assumption|]. apply gaussian_range, Hw.
Qed.

Lemma gaussian_psf_range_witness :
  exists v,
    Np.item (PsfFunctions.gaussian_psf Fields.axis_x Fields.axis_y 100) 0 2 = Some v
    /\ 0 <= v <= 1.
Proof.
  apply (gaussian_psf_range Fields.axis_x Fields.axis_y 100 0 2 100 0);
    [lra | reflexivity | reflexivity].
Defined.

(** X13. With [w > 0] and mode [m >= 1] (1 when omitted) every value of the
    depletion PSF lies between 0 and [(m / e)^m], and that maximum is taken
    on the ring where [x^2 + y^2] is [m] times [w^2]; with the default mode the donut
    peaks at 1/e on the ring of radius [w]. *)
Theorem laguerre_gaussian_donut_ring
    (x y : list (list R)) (w : R) (mode : option Z) (i j : nat) (a b : R) :
  let m := default 1%Z mode in
  0 < w -> (1 <= m)%Z -> Np.item x i j = Some a -> Np.item y i j = Some b ->
  exists v,
    Np.item (PsfFunctions.laguerre_gaussian_donut x y w mode) i j = Some v
    /\ 0 <= v <= (IZR m * exp (- 1)) ^ Z.to_nat m
    /\ (a ^ 2 + b ^ 2 = IZR m * w ^ 2 -> v = (IZR m * exp (- 1)) ^ Z.to_nat m).
Proof.
  intros m Hw Hm Ha Hb.
  exists (PsfFunctions.laguerre_gaussian_donut_at w m a b).
  split; [apply item_elementwise; assumption|].
  destruct (donut_at_power w m a b Hw Hm) as [Ht ->].
  set (n := Z.to_nat m) in *. set (t := (a ^ 2 + b ^ 2) / w ^ 2 / INR n) in *.
  assert (Hn : INR n = IZR m) by (unfold n; rewrite INR_IZR_INZ, Z2Nat.id; [reflexivity | lia]).
  rewrite <- Hn.
  assert (Hpos : 0 < INR n) by (apply lt_0_INR; unfold n; lia).
  pose proof (exp_pos (- t)) as Hexp.
  assert (Hlo : 0 <= t * exp (- t)) by nra.
  pose proof (ring_profile_bound t) as Hhi.
  rewrite (Rpow_mult_distr (INR n) (exp (- 1))).
  pose proof (pow_le (INR n) n (Rlt_le _ _ Hpos)) as Hnn.
  split; [split|].
  - apply Rmult_le_pos; [exact Hnn | apply pow_le, Hlo].
  - apply Rmult_le_compat_l; [exact Hnn|]. apply pow_incr. split; assumption.
  - intros Hring. f_equal. f_equal.
    assert (Ht1 : t = 1) by (unfold t; rewrite Hring, Hn; field; split; lra).
    rewrite Ht1, Rmult_1_l. f_equal; lra.
Qed.

Lemma laguerre_gaussian_donut_ring_witness :
  exists v,
    Np.item (PsfFunctions.laguerre_gaussian_donut Fields.axis_x Fields.axis_y 100 None)
      0 2 = Some v
    /\ 0 <= v <= (1 * exp (- 1)) ^ 1
    /\ (100 ^ 2 + 0 ^ 2 = 1 * 100 ^ 2 -> v = (1 * exp (- 1)) ^ 1).
Proof.
  apply (laguerre_gaussian_donut_ring Fields.axis_x Fields.axis_y 100 None 0 2 100 0);
    [lra | simpl; lia | reflexivity | reflexivity].
Defined.

(** X14. Without depletion power the effective PSF is the excitation PSF:
    for [I_s > 0] and arrays of one shape, [effective_psf exc sted I_s 0]
    returns [exc] unchanged. *)
Theorem effective_psf_without_depletion
    (exc_psf sted_psf : list (list R)) (n m : nat) (I_s : R) :
  0 < I_s -> Np.shape exc_psf n m -> Np.shape sted_psf n m ->
  PsfFunctions.effective_psf exc_psf sted_psf I_s 0 = exc_psf.
Proof.
  intros HIs Hexc Hsted. unfold PsfFunctions.effective_psf.
  apply (elementwise_left_id _ _ _ n m); [|assumption|assumption].
  intros u v. unfold PsfFunctions.effective_psf_at.
  replace ((- 0) * v / I_s) with 0 by (field; lra).
  rewrite exp_0. ring.
Qed.

Lemma effective_psf_without_depletion_witness :
  PsfFunctions.effective_psf Fields.excitation Fields.depletion 2 0
  = Fields.excitation.
Proof.
  apply (effective_psf_without_depletion Fields.excitation Fields.depletion 1 2 2);
    [lra | split; [reflexivity | repeat constructor]
         | split; [reflexivity | repeat constructor]].
Defined.

(** X15. More depletion power never gives more signal: for non-negative
    excitation and depletion, [I_s > 0] and [I0_sted <= I0_sted'], the
    effective PSF with [I0_sted'] is at most the one with [I0_sted]. *)
Theorem effective_psf_decreasing_in_power
    (exc_psf sted_psf : list (list R)) (I_s I0_sted I0_sted' : R)
    (i j : nat) (exc depl : R) :
  Np.item exc_psf i j = Some exc -> Np.item sted_psf i j = Some depl ->
  0 <= exc -> 0 <= depl -> 0 < I_s -> I0_sted <= I0_sted' ->
  exists v v',
    Np.item (PsfFunctions.effective_psf exc_psf sted_psf I_s I0_sted) i j = Some v
    /\ Np.item (PsfFunctions.effective_psf exc_psf sted_psf I_s I0_sted') i j = Some v'
    /\ v' <= v.
Proof.
  intros Hexc Hdepl He Hd HIs Hle.
  exists (PsfFunctions.effective_psf_at I_s I0_sted exc depl),
    (PsfFunctions.effective_psf_at I_s I0_sted' exc depl).
  split; [apply item_elementwise; assumption|].
  split; [apply item_elementwise; assumption|].
  apply effective_decreasing; assumption.
Qed.

Lemma effective_psf_decreasing_in_power_witness :
  exists v v',
    Np.item (PsfFunctions.effective_psf Fields.excitation Fields.depletion 2 0) 0 1
      = Some v
    /\ Np.item (PsfFunctions.effective_psf Fields.excitation Fields.depletion 2 25) 0 1
       = Some v'
    /\ v' <= v.
Proof.
  apply (effective_psf_decreasing_in_power Fields.excitation Fields.depletion
           2 0 25 0 1 (1 / 2) 1); try reflexivity; lra.
Defined.

(** X17. The three functions composed as their callers compose them, on
    coordinate arrays of one shape, with positive beam waists, [I_s > 0]
    and [I0_sted >= 0]: at every position the effective PSF lies between 0
    and the excitation PSF, the excitation PSF is at most 1 and the donut
    lies between 0 and 1/e; where both coordinates are 0 the excitation and
    the effective PSF are 1 and the donut is 0. *)
Theorem psf_fields_profile
    (x y : list (list R)) (w_exc w_sted I_s I0_sted : R) (i j : nat) (a b : R) :
  0 < w_exc -> 0 < w_sted -> 0 < I_s -> 0 <= I0_sted ->
  Np.item x i j = Some a -> Np.item y i j = Some b ->
  let exc_psf := PsfFunctions.gaussian_psf x y w_exc in
  let sted_donut := PsfFunctions.laguerre_gaussian_donut x y w_sted None in
  let eff_psf := PsfFunctions.effective_psf exc_psf sted_donut I_s I0_sted in
  exists e d f,
    Np.item exc_psf i j = Some e /\ Np.item sted_donut i j = Some d
    /\ Np.item eff_psf i j = Some f
    /\ 0 <= f <= e /\ e <= 1 /\ 0 <= d <= exp (- 1)
    /\ (a = 0 -> b = 0 -> e = 1 /\ d = 0 /\ f = 1).
Proof.
  intros Hwe Hws HIs HI0 Ha Hb exc_psf sted_donut eff_psf.
  assert (He : Np.item exc_psf i j = Some (PsfFunctions.gaussian_psf_at w_exc a b))
    by (apply item_elementwise; assumption).
  assert (Hd : Np.item sted_donut i j
               = Some (PsfFunctions.laguerre_gaussian_donut_at w_sted 1 a b))
    by (apply (item_elementwise (PsfFunctions.laguerre_gaussian_donut_at w_sted 1));
        assumption).
  eexists _, _, _. split; [exact He|]. split; [exact Hd|].
  split; [apply item_elementwise; eassumption|].
  pose proof (gaussian_range w_exc a b Hwe) as [Helo Hehi].
  pose proof (donut_default_bounds w_sted a b Hws) as [Hdlo Hdhi].
  pose proof (depletion_factor_bounds I_s I0_sted _ Hdlo HIs HI0) as [Hfpos Hfle].
  split; [unfold PsfFunctions.effective_psf_at; split; nra|].
  split; [exact Hehi|]. split; [split; assumption|].
  intros -> ->. rewrite gaussian_at_origin, donut_at_origin by lia.
  rewrite effective_at_dark_centre. auto.
Qed.

Lemma psf_fields_profile_witness :
  exists e d f,
    Np.item (PsfFunctions.gaussian_psf Fields.axis_x Fields.axis_y 100) 0 1 = Some e
    /\ Np.item (PsfFunctions.laguerre_gaussian_donut Fields.axis_x Fields.axis_y 115 None)
         0 1 = Some d
    /\ Np.item
         (PsfFunctions.effective_psf
            (PsfFunctions.gaussian_psf Fields.axis_x Fields.axis_y 100)
            (PsfFunctions.laguerre_gaussian_donut Fields.axis_x Fields.axis_y 115 None)
            2 25) 0 1 = Some f
    /\ 0 <= f <= e /\ e <= 1 /\ 0 <= d <= exp (- 1)
    /\ (0 = 0 -> 0 = 0 -> e = 1 /\ d = 0 /\ f = 1).
Proof.
  apply (psf_fields_profile Fields.axis_x Fields.axis_y 100 115 2 25 0 1 0 0);
    try reflexivity; lra.
Defined.

(** * The grid and the normalisation of main.py *)

Section Grid.
Import Py.

Lemma linspace_samples (start stop : R) (num : Z) :
  (0 <= num)%Z ->
  let step := (stop - start) / (IZR num - 1) in
  exists xs,
    Arrays.linspace start stop num = Ok xs
    /\ length xs = Z.to_nat num
    /\ forall i, (i < Z.to_nat num)%nat -> xs !! i = Some (start + INR i * step).
Proof.
  intros Hnum step. unfold Arrays.linspace.
  destruct (num <? 0)%Z eqn:E; [apply Z.ltb_lt in E; lia|].
  eexists. split; [reflexivity|]. split.
  - rewrite length_map, length_seq. reflexivity.
  - intros i Hi. rewrite lookup_map, lookup_seq_lt by exact Hi. reflexivity.
Qed.

Lemma INR_to_nat_pred (num : Z) :
  (1 <= num)%Z -> INR (Z.to_nat num - 1) = IZR num - 1.
Proof.
  intros Hnum. rewrite minus_INR by lia. rewrite INR_IZR_INZ, Z2Nat.id by lia.
  simpl. reflexivity.
Qed.

Lemma meshgrid_items (a b : list R) (i j : nat) (u v : R) :
  a !! j = Some u -> b !! i = Some v ->
  Np.item (fst (Arrays.meshgrid a b)) i j = Some u
  /\ Np.item (snd (Arrays.meshgrid a b)) i j = Some v.
Proof.
  intros Ha Hb. unfold Arrays.meshgrid, Np.item. simpl.
  rewrite !lookup_map, Hb. simpl. rewrite lookup_map, Ha. auto.
Qed.

Lemma meshgrid_shape (a b : list R) :
  Np.shape (fst (Arrays.meshgrid a b)) (length b) (length a)
  /\ Np.shape (snd (Arrays.meshgrid a b)) (length b) (length a).
Proof.
  unfold Arrays.meshgrid, Np.shape. simpl. rewrite !length_map.
  repeat split; apply Forall_forall; intros row Hrow;
    apply list_elem_of_In, in_map_iff in Hrow as (v & <- & _);
    [reflexivity | apply length_map].
Qed.

(** The grid in terms of the samples of the axis: every row of [x] and
    every column of [y] is the axis, which begins at [-extent_nm / 2] and
    ends at [extent_nm / 2]. *)
Lemma grid_coordinates (extent_nm : R) (grid_size : Z) :
  (2 <= grid_size)%Z ->
  let n := Z.to_nat grid_size in
  exists (x y : list (list R)) (c : nat -> R),
    Main.grid extent_nm grid_size = Ok (x, y)
    /\ Np.shape x n n /\ Np.shape y n n
    /\ (forall i j, (i < n)%nat -> (j < n)%nat ->
          Np.item x i j = Some (c j) /\ Np.item y i j = Some (c i))
    /\ c 0%nat = - extent_nm / 2
    /\ c (n - 1)%nat = extent_nm / 2.
Proof.
  intros Hsize n. unfold Main.grid.
  destruct (linspace_samples (- extent_nm / 2) (extent_nm / 2) grid_size)
    as (xy & -> & Hlen & Hat); [lia|].
  fold n in Hlen, Hat. simpl.
  exists (fst (Arrays.meshgrid xy xy)), (snd (Arrays.meshgrid xy xy)).
  exists (fun k : nat =>
            - extent_nm / 2
            + INR k * ((extent_nm / 2 - - extent_nm / 2) / (IZR grid_size - 1))).
  split; [reflexivity|].
  destruct (meshgrid_shape xy xy) as [Hx Hy]. rewrite Hlen in Hx, Hy.
  split; [exact Hx|]. split; [exact Hy|]. cbv beta. split; [|split].
  - intros i j Hi Hj. apply meshgrid_items; apply Hat; assumption.
  - simpl. ring.
  - assert (Hn : INR (n - 1) = IZR grid_size - 1) by (apply INR_to_nat_pred; lia).
    assert (Hnz : IZR grid_size - 1 <> 0) by (pose proof (IZR_le _ _ Hsize); lra).
    rewrite Hn. field. exact Hnz.
Qed.

End Grid.

(** X16. For [grid_size >= 2] the grid of main.py is a pair of
    [grid_size] x [grid_size] arrays: [x] varies along the second axis only
    and [y] along the first only ([y] is the transpose of [x]), and the
    coordinates begin at [-extent_nm / 2] and end at [extent_nm / 2]. *)
Theorem grid_layout (extent_nm : R) (grid_size : Z) :
  (2 <= grid_size)%Z ->
  let n := Z.to_nat grid_size in
  exists x y,
    Main.grid extent_nm grid_size = Py.Ok (x, y)
    /\ Np.shape x n n /\ Np.shape y n n
    /\ (forall i, (i < n)%nat ->
          Np.item x i 0 = Some (- extent_nm / 2)
          /\ Np.item x i (n - 1) = Some (extent_nm / 2)
          /\ Np.item y 0 i = Some (- extent_nm / 2)
          /\ Np.item y (n - 1) i = Some (extent_nm / 2))
    /\ (forall i j, (i < n)%nat -> (j < n)%nat ->
          exists a b,
            Np.item x i j = Some a /\ Np.item y i j = Some b
            /\ Np.item x j i = Some b /\ Np.item y j i = Some a
            /\ (forall k, (k < n)%nat ->
                  Np.item x k j = Some a /\ Np.item y i k = Some b)).
Proof.
  intros Hsize n.
  destruct (grid_coordinates extent_nm grid_size Hsize)
    as (x & y & c & Hgrid & Hx & Hy & Hxy & Hfirst & Hlast).
  fold n in Hx, Hy, Hxy, Hlast.
  exists x, y. split; [exact Hgrid|]. split; [exact Hx|]. split; [exact Hy|].
  assert (Hn : (0 < n)%nat) by (unfold n; lia).
  split.
  - intros i Hi.
    destruct (Hxy i 0%nat Hi Hn) as [H1 _].
    destruct (Hxy i (n - 1)%nat Hi) as [H2 _]; [lia|].
    destruct (Hxy 0%nat i Hn Hi) as [_ H3].
    destruct (Hxy (n - 1)%nat i) as [_ H4]; [lia | exact Hi|].
    rewrite Hfirst in H1, H3. rewrite Hlast in H2, H4. auto.
  - intros i j Hi Hj. exists (c j), (c i).
    destruct (Hxy i j Hi Hj) as [H1 H2].
    destruct (Hxy j i Hj Hi) as [H3 H4].
    repeat (split; [assumption|]).
    intros k Hk.
    destruct (Hxy k j Hk Hj) as [H5 _]. destruct (Hxy i k Hi Hk) as [_ H6].
    auto.
Qed.

Lemma grid_layout_witness :
  exists x y,
    Main.grid 1000 3 = Py.Ok (x, y)
    /\ Np.shape x 3 3 /\ Np.shape y 3 3
    /\ (forall i, (i < 3)%nat ->
          Np.item x i 0 = Some (- 1000 / 2)
          /\ Np.item x i (3 - 1) = Some (1000 / 2)
          /\ Np.item y 0 i = Some (- 1000 / 2)
          /\ Np.item y (3 - 1) i = Some (1000 / 2))
    /\ (forall i j, (i < 3)%nat -> (j < 3)%nat ->
          exists a b,
            Np.item x i j = Some a /\ Np.item y i j = Some b
            /\ Np.item x j i = Some b /\ Np.item y j i = Some a
            /\ (forall k, (k < 3)%nat ->
                  Np.item x k j = Some a /\ Np.item y i k = Some b)).
Proof. apply (grid_layout 1000 3). lia. Defined.

Section ArrayMaximum.
Import Py.

Lemma Rmax_selects (a b : R) : Rmax a b = a \/ Rmax a b = b.
Proof. unfold Rmax. destruct (Rle_dec a b); auto. Qed.

(** [a.max()] returns an entry that no entry exceeds; an array of size zero
    has none. *)
Lemma amax_spec (a : list (list R)) (m : R) :
  Arrays.amax a = Ok m
  <-> (exists i j, Np.item a i j = Some m)
      /\ forall i j v, Np.item a i j = Some v -> v <= m.
Proof.
  unfold Arrays.amax. split.
  - intros Hm. destruct (concat a) as [|x l] eqn:E; [discriminate|].
    destruct (reduce_extremum Rmax Rle Rle_refl Rle_trans Rmax_selects
                Rmax_l Rmax_r "maximum" (concat a)) as (m' & Hm' & Hin & Hub);
      [congruence|].
    rewrite E, Hm in Hm'. injection Hm' as <-. split.
    + apply in_concat_item. exact Hin.
    + intros i j v Hv. apply Hub, in_concat_item. eauto.
  - intros [(i & j & Hij) Hub].
    assert (Hin : In m (concat a)) by (apply in_concat_item; eauto).
    destruct (reduce_extremum Rmax Rle Rle_refl Rle_trans Rmax_selects
                Rmax_l Rmax_r "maximum" (concat a)) as (m' & -> & Hin' & Hub');
      [intros E; rewrite E in Hin; destruct Hin|].
    f_equal. apply in_concat_item in Hin' as (i' & j' & Hij').
    apply Rle_antisym; [eapply Hub; exact Hij' | apply Hub', Hin].
Qed.

End ArrayMaximum.

Section Normalisation.
Import Py PsfFunctions.

Lemma shape_map {A B} (g : A -> B) (a : list (list A)) (n m : nat) :
  Np.shape a n m -> Np.shape (map (map g) a) n m.
Proof.
  intros [Hn Hm]. split; [rewrite length_map; exact Hn|].
  apply Forall_lookup. intros i row. rewrite lookup_map.
  destruct (a !! i) as [r|] eqn:Hr; [|discriminate]. intros [= <-].
  rewrite length_map. exact (proj1 (Forall_lookup _ _) Hm _ _ Hr).
Qed.

End Normalisation.

(** X19. Normalising a field whose maximum [M] is positive divides every
    entry by [M]: the shape is kept, no entry exceeds 1, and the maximum of
    the result is exactly 1. *)
Theorem normalize_maximum_one (psf : list (list R)) (M : R) :
  Arrays.amax psf = Py.Ok M -> 0 < M ->
  exists normalized,
    Main.normalize psf = Py.Ok normalized
    /\ Arrays.amax normalized = Py.Ok 1
    /\ (forall n m, Np.shape psf n m -> Np.shape normalized n m)
    /\ forall i j v, Np.item psf i j = Some v ->
         Np.item normalized i j = Some (v / M) /\ v / M <= 1.
Proof.
  intros Hmax HM. unfold Main.normalize. rewrite Hmax. simpl.
  eexists. split; [reflexivity|].
  apply amax_spec in Hmax as [(i0 & j0 & Hi0) Hub].
  assert (Hinv : 0 < / M) by (apply Rinv_0_lt_compat; exact HM).
  assert (Hle : forall v, v <= M -> v / M <= 1).
  { intros v Hv. unfold Rdiv.
    replace 1 with (M * / M) by (field; lra). nra. }
  split; [|split].
  - apply amax_spec. split.
    + exists i0, j0. rewrite item_map, Hi0. simpl. f_equal. field. lra.
    + intros i j v. rewrite item_map.
      destruct (Np.item psf i j) as [u|] eqn:Hu; [|discriminate].
      intros [= <-]. apply Hle. eapply Hub. exact Hu.
  - intros n m. apply shape_map.
  - intros i j v Hv. rewrite item_map, Hv. split; [reflexivity|].
    apply Hle. eapply Hub. exact Hv.
Qed.

Lemma normalize_maximum_one_witness :
  exists normalized,
    Main.normalize [[1; 2]; [4; 3]] = Py.Ok normalized
    /\ Arrays.amax normalized = Py.Ok 1
    /\ (forall n m, Np.shape [[1; 2]; [4; 3]] n m -> Np.shape normalized n m)
    /\ forall i j v, Np.item [[1; 2]; [4; 3]] i j = Some v ->
         Np.item normalized i j = Some (v / 4) /\ v / 4 <= 1.
Proof.
  apply (normalize_maximum_one [[1; 2]; [4; 3]] 4); [|lra].
  apply amax_spec. split; [exists 1%nat, 0%nat; reflexivity|].
  intros [|[|i]] [|[|j]] v; simpl; try discriminate; try (intros [= <-]; lra).
  all: destruct j; discriminate.
Defined.
